(** * SafeScroll: a shallow embedding of the auditor's Python sources

    The development follows the three source files of the repository:

    - [agents.py]: the helper [_run_json_agent] and the five prompt agents
      (module [Agents]);
    - [generate_synthetic_data.py]: the synthetic table generator
      (module [Generator]);
    - [app.py]: the dashboard, its loaders and the audit flow (module [App]).

    The sources lean on three library services that are not part of the
    repository: the [json] module, the [random] module and the hosted
    completion endpoint.  Module [Json] models the standard decoder and
    encoder on sequences of code points, [Generator] reads its random numbers
    from an entropy tape, and [Agents] threads an arbitrary endpoint through a
    small state monad that also records every request. *)

From Stdlib Require Import String Ascii.
From Stdlib Require Import List NArith ZArith Bool Lia Arith FinFun.
From Stdlib Require DecimalN DecimalPos DecimalFacts.
Import ListNotations.

Set Implicit Arguments.
Set Warnings "-register-all".

(* ===================================================================== *)
(** * Python strings                                                      *)
(* ===================================================================== *)

(** A Python [str] is a sequence of Unicode code points. *)
Definition pystr : Type := list N.

(** [u "abc"] is the [str] written with the (ASCII) literal ["abc"]. *)
Definition u (s : string) : pystr :=
  List.map N_of_ascii (list_ascii_of_string s).

Fixpoint pystr_eqb (a b : pystr) : bool :=
  match a, b with
  | [], [] => true
  | x :: a', y :: b' => N.eqb x y && pystr_eqb a' b'
  | _, _ => false
  end.

(** [sep.join(parts)] *)
Fixpoint join (sep : pystr) (parts : list pystr) : pystr :=
  match parts with
  | [] => []
  | [p] => p
  | p :: rest => p ++ sep ++ join sep rest
  end.

(** [s.startswith(p)], returning what follows the prefix. *)
Fixpoint strip_prefix (p s : pystr) : option pystr :=
  match p, s with
  | [], _ => Some s
  | x :: p', y :: s' => if N.eqb x y then strip_prefix p' s' else None
  | _ :: _, [] => None
  end.

(** [s.rfind(c)] for a one-character needle: the index of its last
    occurrence, or [-1]. *)
Fixpoint rfind_from (c : N) (s : pystr) (i : Z) (last : Z) : Z :=
  match s with
  | [] => last
  | x :: s' => rfind_from c s' (i + 1) (if N.eqb x c then i else last)
  end.

Definition rfind (c : N) (s : pystr) : Z := rfind_from c s 0 (-1).

(** [s[idx:]] for [0 <= idx]. *)
Definition slice_from (idx : Z) (s : pystr) : pystr := skipn (Z.to_nat idx) s.

(** [str(n)] for a non-negative integer: its decimal digits. *)
Fixpoint uint_codes (d : Decimal.uint) : pystr :=
  match d with
  | Decimal.Nil => []
  | Decimal.D0 d => 48%N :: uint_codes d
  | Decimal.D1 d => 49%N :: uint_codes d
  | Decimal.D2 d => 50%N :: uint_codes d
  | Decimal.D3 d => 51%N :: uint_codes d
  | Decimal.D4 d => 52%N :: uint_codes d
  | Decimal.D5 d => 53%N :: uint_codes d
  | Decimal.D6 d => 54%N :: uint_codes d
  | Decimal.D7 d => 55%N :: uint_codes d
  | Decimal.D8 d => 56%N :: uint_codes d
  | Decimal.D9 d => 57%N :: uint_codes d
  end.

Definition str_of_N (n : N) : pystr := uint_codes (N.to_uint n).

(** [str(z)] / [int.__repr__]. *)
Definition str_of_Z (z : Z) : pystr :=
  match z with
  | Z0 => str_of_N 0
  | Zpos p => str_of_N (Npos p)
  | Zneg p => 45%N :: str_of_N (Npos p)
  end.

Definition is_digit (c : N) : bool := (48 <=? c)%N && (c <=? 57)%N.

(** The digits read back: [int(digits)] for a string of ASCII digits. *)
Fixpoint codes_uint (s : pystr) : Decimal.uint :=
  match s with
  | [] => Decimal.Nil
  | c :: s' =>
      let d := codes_uint s' in
      if N.eqb c 48 then Decimal.D0 d
      else if N.eqb c 49 then Decimal.D1 d
      else if N.eqb c 50 then Decimal.D2 d
      else if N.eqb c 51 then Decimal.D3 d
      else if N.eqb c 52 then Decimal.D4 d
      else if N.eqb c 53 then Decimal.D5 d
      else if N.eqb c 54 then Decimal.D6 d
      else if N.eqb c 55 then Decimal.D7 d
      else if N.eqb c 56 then Decimal.D8 d
      else Decimal.D9 d
  end.

Definition N_of_digits (s : pystr) : N := N.of_uint (codes_uint s).

(** A dict with [str] keys is an insertion-ordered association list with
    distinct keys; [d[k] = v] replaces the value of a present key in place
    and appends a new key. *)
Fixpoint dict_set {A : Type} (k : pystr) (v : A) (d : list (pystr * A))
  : list (pystr * A) :=
  match d with
  | [] => [(k, v)]
  | (k', v') :: d' =>
      if pystr_eqb k' k then (k', v) :: d' else (k', v') :: dict_set k v d'
  end.

(** [dict(pairs)] *)
Definition dict_of_pairs {A : Type} (ps : list (pystr * A)) : list (pystr * A) :=
  fold_left (fun d kv => dict_set (fst kv) (snd kv) d) ps [].

(** [d.get(k)]; [d[k]] raises [KeyError] where this is [None]. *)
Fixpoint dict_get {A : Type} (k : pystr) (d : list (pystr * A)) : option A :=
  match d with
  | [] => None
  | (k', v) :: d' => if pystr_eqb k' k then Some v else dict_get k d'
  end.

(** [needle in s] for strings. *)
Fixpoint contains (needle s : pystr) : bool :=
  match strip_prefix needle s with
  | Some _ => true
  | None => match s with
            | [] => false
            | _ :: s' => contains needle s'
            end
  end.

(* ===================================================================== *)
(** * The [json] module                                                   *)
(* ===================================================================== *)

Module Json.

(** The Python values [json.loads] can return.  [JNull] is [None].  A float
    is kept as the literal that denotes it: the model does no floating-point
    rounding, so two literals of one double are distinct values here. *)
Inductive value : Type :=
| JNull
| JBool (b : bool)
| JInt (z : Z)
| JFloat (lit : pystr)
| JStr (s : pystr)
| JList (items : list value)
| JDict (pairs : list (pystr * value)).

Definition is_dict (v : value) : bool :=
  match v with JDict _ => true | _ => false end.

(** ** Decoder

    The decoder follows [json.decoder] and [json.scanner] function by
    function, on the unread rest of the input where the library keeps an
    index into it.  The limits of the interpreter (the recursion depth, the
    4300 digits [int] accepts) are not modelled: integers and nesting are
    unbounded. *)

(** The outcome of a scanning function: a value and the unread input, a
    [JSONDecodeError], or the recursion budget of the model ran out (which
    never happens for the budget [loads] gives, see [loads_fuel_suffices]). *)
Inductive parsed (A : Type) : Type :=
| Ok (a : A) (rest : pystr)
| Bad
| OutOfFuel.
Arguments Bad {A}.
Arguments OutOfFuel {A}.

Definition map_ok {A B : Type} (f : A -> B) (p : parsed A) : parsed B :=
  match p with
  | Ok a r => Ok (f a) r
  | Bad => Bad
  | OutOfFuel => OutOfFuel
  end.

(** [WHITESPACE = [ \t\n\r]*] *)
Definition is_ws (c : N) : bool :=
  (c =? 32)%N || (c =? 9)%N || (c =? 10)%N || (c =? 13)%N.

Fixpoint skip_ws (s : pystr) : pystr :=
  match s with
  | c :: r => if is_ws c then skip_ws r else s
  | [] => []
  end.

Definition hexval (c : N) : option N :=
  if (48 <=? c)%N && (c <=? 57)%N then Some (c - 48)%N
  else if (65 <=? c)%N && (c <=? 70)%N then Some (c - 55)%N
  else if (97 <=? c)%N && (c <=? 102)%N then Some (c - 87)%N
  else None.

(** [_decode_uXXXX], applied to the input after the [u]. *)
Definition decode_uXXXX (s : pystr) : option (N * pystr) :=
  match s with
  | a :: b :: c :: d :: r =>
      match hexval a, hexval b, hexval c, hexval d with
      | Some x, Some y, Some z, Some w =>
          Some (4096 * x + 256 * y + 16 * z + w, r)%N
      | _, _, _, _ => None
      end
  | _ => None
  end.

(** [BACKSLASH]: the one-character escapes. *)
Definition backslash (esc : N) : option N :=
  if (esc =? 34)%N then Some 34%N
  else if (esc =? 92)%N then Some 92%N
  else if (esc =? 47)%N then Some 47%N
  else if (esc =? 98)%N then Some 8%N
  else if (esc =? 102)%N then Some 12%N
  else if (esc =? 110)%N then Some 10%N
  else if (esc =? 114)%N then Some 13%N
  else if (esc =? 116)%N then Some 9%N
  else None.

Definition is_high_surrogate (n : N) : bool := (55296 <=? n)%N && (n <=? 56319)%N.
Definition is_low_surrogate (n : N) : bool := (56320 <=? n)%N && (n <=? 57343)%N.

Definition cons_ok (c : N) (p : parsed pystr) : parsed pystr :=
  map_ok (cons c) p.

(** [py_scanstring] with [strict=True], started after the opening quote. *)
Fixpoint scanstring (fuel : nat) (s : pystr) {struct fuel} : parsed pystr :=
  match fuel with
  | O => OutOfFuel
  | S fuel' =>
      match s with
      | [] => Bad
      | c :: r =>
          if (c =? 34)%N then Ok [] r
          else if (c =? 92)%N then
            match r with
            | [] => Bad
            | esc :: r1 =>
                if (esc =? 117)%N then
                  match decode_uXXXX r1 with
                  | None => Bad
                  | Some (uni, r2) =>
                      if is_high_surrogate uni then
                        match strip_prefix [92; 117]%N r2 with
                        | Some r3 =>
                            match decode_uXXXX r3 with
                            | None => Bad
                            | Some (uni2, r4) =>
                                if is_low_surrogate uni2 then
                                  cons_ok
                                    (65536 + ((uni - 55296) * 1024 + (uni2 - 56320)))%N
                                    (scanstring fuel' r4)
                                else cons_ok uni (scanstring fuel' r2)
                            end
                        | None => cons_ok uni (scanstring fuel' r2)
                        end
                      else cons_ok uni (scanstring fuel' r2)
                  end
                else
                  match backslash esc with
                  | Some ch => cons_ok ch (scanstring fuel' r1)
                  | None => Bad
                  end
            end
          else if (c <? 32)%N then Bad
          else cons_ok c (scanstring fuel' r)
      end
  end.

Definition py_scanstring (s : pystr) : parsed pystr :=
  scanstring (S (length s)) s.

(** [NUMBER_RE]: an integer group (an optional minus sign, then a single
    zero or a non-zero digit followed by digits), an optional fraction group
    (a dot and at least one digit) and an optional exponent group (e or E, an
    optional sign, at least one digit).  Digits are the ASCII digits, as in
    the C scanner. *)
Fixpoint span_digits (s : pystr) : pystr * pystr :=
  match s with
  | c :: r =>
      if is_digit c then let (d, r') := span_digits r in (c :: d, r')
      else ([], s)
  | [] => ([], [])
  end.

Definition match_integer (s : pystr) : option (pystr * pystr) :=
  let (sign, s1) :=
    match s with
    | c :: r => if (c =? 45)%N then ([45%N], r) else ([], s)
    | [] => ([], s)
    end in
  match s1 with
  | c :: r =>
      if (c =? 48)%N then Some (sign ++ [48%N], r)
      else if is_digit c then
        let (ds, r') := span_digits r in Some (sign ++ c :: ds, r')
      else None
  | [] => None
  end.

Definition match_frac (s : pystr) : pystr * pystr :=
  match s with
  | c :: r =>
      if (c =? 46)%N then
        match span_digits r with
        | ([], _) => ([], s)
        | (ds, r') => (46%N :: ds, r')
        end
      else ([], s)
  | [] => ([], s)
  end.

Definition match_exp (s : pystr) : pystr * pystr :=
  match s with
  | c :: r =>
      if (c =? 101)%N || (c =? 69)%N then
        let (sg, r1) :=
          match r with
          | c' :: r' => if (c' =? 45)%N || (c' =? 43)%N then ([c'], r') else ([], r)
          | [] => ([], r)
          end in
        match span_digits r1 with
        | ([], _) => ([], s)
        | (ds, r2) => (c :: sg ++ ds, r2)
        end
      else ([], s)
  | [] => ([], s)
  end.

(** [int(integer)] for a literal matched by the integer group. *)
Definition int_of_literal (lit : pystr) : Z :=
  match lit with
  | c :: ds => if (c =? 45)%N then (- Z.of_N (N_of_digits ds))%Z
               else Z.of_N (N_of_digits lit)
  | [] => 0%Z
  end.

(** [match_number] and the conversion that follows it in [_scan_once]. *)
Definition scan_number (s : pystr) : option (value * pystr) :=
  match match_integer s with
  | None => None
  | Some (integer, r) =>
      let (frac, r1) := match_frac r in
      let (exp, r2) := match_exp r1 in
      match frac, exp with
      | [], [] => Some (JInt (int_of_literal integer), r2)
      | _, _ => Some (JFloat (integer ++ frac ++ exp), r2)
      end
  end.

(** The constants and numbers of [_scan_once]. *)
Definition scan_atom (s : pystr) : parsed value :=
  match strip_prefix (u "null") s with
  | Some r => Ok JNull r
  | None =>
  match strip_prefix (u "true") s with
  | Some r => Ok (JBool true) r
  | None =>
  match strip_prefix (u "false") s with
  | Some r => Ok (JBool false) r
  | None =>
  match scan_number s with
  | Some (v, r) => Ok v r
  | None =>
  match strip_prefix (u "NaN") s with
  | Some r => Ok (JFloat (u "NaN")) r
  | None =>
  match strip_prefix (u "Infinity") s with
  | Some r => Ok (JFloat (u "Infinity")) r
  | None =>
  match strip_prefix (u "-Infinity") s with
  | Some r => Ok (JFloat (u "-Infinity")) r
  | None => Bad
  end end end end end end end.

(** [_scan_once], with [JSONObject] and [JSONArray] as the two loops
    [object_pairs] (entered after the opening quote of a key) and
    [array_items] (entered at the start of an item). *)
Fixpoint scan_once (fuel : nat) (s : pystr) {struct fuel} : parsed value :=
  match fuel with
  | O => OutOfFuel
  | S fuel' =>
      match s with
      | [] => Bad
      | c :: r =>
          if (c =? 34)%N then map_ok JStr (py_scanstring r)
          else if (c =? 123)%N then
            match skip_ws r with
            | c1 :: r1 =>
                if (c1 =? 125)%N then Ok (JDict []) r1
                else if (c1 =? 34)%N then object_pairs fuel' r1 []
                else Bad
            | [] => Bad
            end
          else if (c =? 91)%N then
            match skip_ws r with
            | c1 :: r1 =>
                if (c1 =? 93)%N then Ok (JList []) r1
                else array_items fuel' (c1 :: r1) []
            | [] => Bad
            end
          else scan_atom s
      end
  end

with object_pairs (fuel : nat) (s : pystr) (acc : list (pystr * value))
       {struct fuel} : parsed value :=
  match fuel with
  | O => OutOfFuel
  | S fuel' =>
      match py_scanstring s with
      | Ok key r =>
          match skip_ws r with
          | c :: r1 =>
              if (c =? 58)%N then
                match scan_once fuel' (skip_ws r1) with
                | Ok v r2 =>
                    match skip_ws r2 with
                    | c' :: r3 =>
                        if (c' =? 125)%N then
                          Ok (JDict (dict_of_pairs (rev ((key, v) :: acc)))) r3
                        else if (c' =? 44)%N then
                          match skip_ws r3 with
                          | c'' :: r4 =>
                              if (c'' =? 34)%N
                              then object_pairs fuel' r4 ((key, v) :: acc)
                              else Bad
                          | [] => Bad
                          end
                        else Bad
                    | [] => Bad
                    end
                | Bad => Bad
                | OutOfFuel => OutOfFuel
                end
              else Bad
          | [] => Bad
          end
      | Bad => Bad
      | OutOfFuel => OutOfFuel
      end
  end

with array_items (fuel : nat) (s : pystr) (acc : list value)
       {struct fuel} : parsed value :=
  match fuel with
  | O => OutOfFuel
  | S fuel' =>
      match scan_once fuel' s with
      | Ok v r =>
          match skip_ws r with
          | c :: r1 =>
              if (c =? 93)%N then Ok (JList (rev (v :: acc))) r1
              else if (c =? 44)%N then array_items fuel' (skip_ws r1) (v :: acc)
              else Bad
          | [] => Bad
          end
      | Bad => Bad
      | OutOfFuel => OutOfFuel
      end
  end.

(** [json.loads(s)] for a [str]: [None] stands for a raised
    [JSONDecodeError]. *)
Definition loads (s : pystr) : option value :=
  match strip_prefix [65279%N] s with
  | Some _ => None
  | None =>
      let s0 := skip_ws s in
      match scan_once (2 * length s0 + 2) s0 with
      | Ok v r => match skip_ws r with [] => Some v | _ :: _ => None end
      | Bad => None
      | OutOfFuel => None
      end
  end.

(** ** Encoder *)

Definition hexdigit (d : N) : N := if (d <? 10)%N then (48 + d)%N else (87 + d)%N.

(** ['{0:04x}'.format(n)] for [n < 0x10000] *)
Definition hex4 (n : N) : pystr :=
  [hexdigit (n / 4096 mod 16); hexdigit (n / 256 mod 16);
   hexdigit (n / 16 mod 16); hexdigit (n mod 16)]%N.

Definition u_escape (n : N) : pystr := 92%N :: 117%N :: hex4 n.

(** The replacement of one character in [encode_basestring_ascii]
    ([ensure_ascii = true]) and [encode_basestring].  For a code point
    [n >= 0x10000] the surrogates are [0xd800 | (((n - 0x10000) >> 10) & 0x3ff)]
    and [0xdc00 | ((n - 0x10000) & 0x3ff)]. *)
Definition escape_char (ensure_ascii : bool) (c : N) : pystr :=
  if (c =? 34)%N then [92; 34]%N
  else if (c =? 92)%N then [92; 92]%N
  else if (c =? 10)%N then [92; 110]%N
  else if (c =? 13)%N then [92; 114]%N
  else if (c =? 9)%N then [92; 116]%N
  else if (c =? 8)%N then [92; 98]%N
  else if (c =? 12)%N then [92; 102]%N
  else if (c <? 32)%N then u_escape c
  else if ensure_ascii && (126 <? c)%N then
    if (c <? 65536)%N then u_escape c
    else
      let n := (c - 65536)%N in
      u_escape (55296 + (n / 1024) mod 1024)%N ++ u_escape (56320 + n mod 1024)%N
  else [c].

Definition encode_string (ensure_ascii : bool) (s : pystr) : pystr :=
  34%N :: flat_map (escape_char ensure_ascii) s ++ [34%N].

Section Encoder.
(** [float.__repr__] of the double a literal denotes: the shortest-digits
    printer of the interpreter, taken as a parameter. *)
Variable float_repr : pystr -> pystr.
Variable ensure_ascii : bool.

(** [json.dumps(v, ensure_ascii=ensure_ascii)] with the default
    separators [', '] and [': ']. *)
Fixpoint dumps (v : value) : pystr :=
  match v with
  | JNull => u "null"
  | JBool true => u "true"
  | JBool false => u "false"
  | JInt z => str_of_Z z
  | JFloat lit => float_repr lit
  | JStr s => encode_string ensure_ascii s
  | JList items =>
      91%N :: join (u ", ") (List.map dumps items) ++ [93%N]
  | JDict pairs =>
      123%N ::
      join (u ", ")
        (List.map
           (fun kv => match kv with
                      | (k, x) => encode_string ensure_ascii k ++ u ": " ++ dumps x
                      end) pairs)
      ++ [125%N]
  end.
End Encoder.

(** ** JSON values

    The values that are JSON data: no float (floats are outside the model),
    every string a sequence of Unicode scalar values (no surrogate code
    point, nothing past U+10FFFF), and the keys of every dict distinct, as
    in any Python dict. *)
Definition scalarb (c : N) : bool :=
  (c <? 55296)%N || ((57343 <? c)%N && (c <? 1114112)%N).

Fixpoint distinctb (ks : list pystr) : bool :=
  match ks with
  | [] => true
  | k :: rest => negb (existsb (pystr_eqb k) rest) && distinctb rest
  end.

Fixpoint is_json (v : value) : bool :=
  match v with
  | JNull => true
  | JBool _ => true
  | JInt _ => true
  | JFloat _ => false
  | JStr s => forallb scalarb s
  | JList items => forallb is_json items
  | JDict pairs =>
      distinctb (List.map fst pairs)
      && forallb (fun kv => forallb scalarb (fst kv) && is_json (snd kv)) pairs
  end.

(** What may follow the text of an integer for the text to be read back as
    that integer: the end of the input, or a character that does not
    continue a number. *)
Definition ends_number (rest : pystr) : bool :=
  match rest with
  | [] => true
  | c :: _ => negb (is_digit c || (c =? 46)%N || (c =? 101)%N || (c =? 69)%N)
  end.

(** The encoder's output for the items of a list after the first and for
    the pairs of a dict after the first, up to the closing bracket. *)
Section EncoderShapes.
Variable float_repr : pystr -> pystr.
Variable ensure_ascii : bool.

Definition items_tail (items : list value) : pystr :=
  flat_map (fun v => u ", " ++ dumps float_repr ensure_ascii v) items ++ [93%N].

Definition pairs_tail (pairs : list (pystr * value)) : pystr :=
  flat_map (fun kv => u ", " ++ encode_string ensure_ascii (fst kv) ++ u ": "
                      ++ dumps float_repr ensure_ascii (snd kv)) pairs
  ++ [125%N].

(** A key the decoder reads back as it was written. *)
Definition key_ok (k : pystr) : Prop :=
  ensure_ascii = false \/ forallb scalarb k = true.

(** A value whose encoding the decoder reads back, whatever follows it. *)
Definition reads_back (v : value) : Prop :=
  forall (rest : pystr) (fuel : nat),
    ends_number rest = true ->
    length (dumps float_repr ensure_ascii v) < fuel ->
    scan_once fuel (dumps float_repr ensure_ascii v ++ rest) = Ok v rest.
End EncoderShapes.

End Json.

(* ===================================================================== *)
(** * agents.py                                                           *)
(* ===================================================================== *)

Module Agents.
Import Json.

Definition dq : pystr := [34%N].

(** A triple-quoted template: a newline, then every line with its newline. *)
Definition text_block (lines : list pystr) : pystr :=
  10%N :: flat_map (fun l => l ++ [10%N]) lines.

Definition PROJECT_NAME : pystr := u "SafeScroll".
Definition PROJECT_SLUG : pystr := u "safescroll".
Definition LLM_MODEL : pystr := u "gpt-4o-mini".

(** The arguments of one [client.chat.completions.create] call; the
    [response_format] is the constant [{"type": "json_object"}]. *)
Record request : Type := {
  req_model : pystr;
  req_system : pystr;
  req_user : pystr;
  req_max_tokens : Z
}.

(** What one call can come to, as [_run_json_agent] tells the cases apart. *)
Inductive completion : Type :=
| Raised (e : pystr)            (* the call raised; [e] is [str(e)] *)
| NoContent                     (* [resp.choices[0].message.content] raised *)
| Content (c : option pystr).   (* the content; [None] when the API sends none *)

Definition underage_risk_agent_prompt : pystr :=
  text_block
    [ u "You are an Underage Risk Detection Agent for " ++ PROJECT_NAME ++ u ".";
      [];
      u "You receive:";
      u "- A user profile (age, account_type, created_at)";
      u "- A sample of their posts";
      [];
      u "Task:";
      u "1. Estimate if the user appears UNDER 18 or ADULT based on content style and declared age.";
      u "2. Output a risk score for " ++ dq ++ u "underage_misrepresentation" ++ dq ++ u " from 0 to 100.";
      u "3. Provide reasoning.";
      [];
      u "Output strict JSON:";
      [];
      u "{";
      u "  " ++ dq ++ u "is_minor_suspected" ++ dq ++ u ": true,";
      u "  " ++ dq ++ u "underage_misrepresentation_risk" ++ dq ++ u ": 0,";
      u "  " ++ dq ++ u "reason" ++ dq ++ u ": " ++ dq ++ dq;
      u "}" ].

Definition content_risk_agent_prompt : pystr :=
  text_block
    [ u "You are a Content Safety Agent working for " ++ PROJECT_NAME ++ u ".";
      [];
      u "You receive a list of posts from one user. For each post, you should detect:";
      u "- bullying";
      u "- self_harm";
      u "- sexual_exploitation_or_grooming";
      u "- substance_abuse";
      [];
      u "Then aggregate into overall risk levels.";
      [];
      u "Overall risk levels should be " ++ dq ++ u "none" ++ dq ++ u ", " ++ dq ++ u "low" ++ dq ++ u ", " ++ dq ++ u "medium" ++ dq ++ u ", or " ++ dq ++ u "high" ++ dq ++ u ".";
      [];
      u "Output this strict JSON:";
      [];
      u "{";
      u "  " ++ dq ++ u "per_post" ++ dq ++ u ": [";
      u "    {";
      u "      " ++ dq ++ u "post_id" ++ dq ++ u ": " ++ dq ++ dq ++ u ",";
      u "      " ++ dq ++ u "text" ++ dq ++ u ": " ++ dq ++ dq ++ u ",";
      u "      " ++ dq ++ u "bullying_risk" ++ dq ++ u ": " ++ dq ++ u "none" ++ dq ++ u ",";
      u "      " ++ dq ++ u "self_harm_risk" ++ dq ++ u ": " ++ dq ++ u "none" ++ dq ++ u ",";
      u "      " ++ dq ++ u "sexual_exploitation_risk" ++ dq ++ u ": " ++ dq ++ u "none" ++ dq ++ u ",";
      u "      " ++ dq ++ u "substance_abuse_risk" ++ dq ++ u ": " ++ dq ++ u "none" ++ dq ++ u ",";
      u "      " ++ dq ++ u "notes" ++ dq ++ u ": " ++ dq ++ dq;
      u "    }";
      u "  ],";
      u "  " ++ dq ++ u "overall" ++ dq ++ u ": {";
      u "    " ++ dq ++ u "bullying_risk" ++ dq ++ u ": " ++ dq ++ u "none" ++ dq ++ u ",";
      u "    " ++ dq ++ u "self_harm_risk" ++ dq ++ u ": " ++ dq ++ u "none" ++ dq ++ u ",";
      u "    " ++ dq ++ u "sexual_exploitation_risk" ++ dq ++ u ": " ++ dq ++ u "none" ++ dq ++ u ",";
      u "    " ++ dq ++ u "substance_abuse_risk" ++ dq ++ u ": " ++ dq ++ u "none" ++ dq ++ u ",";
      u "    " ++ dq ++ u "summary" ++ dq ++ u ": " ++ dq ++ dq;
      u "  }";
      u "}" ].

Definition interaction_risk_agent_prompt : pystr :=
  text_block
    [ u "You are an Interaction Risk Agent for " ++ PROJECT_NAME ++ u ".";
      [];
      u "You receive:";
      u "- A user profile";
      u "- A list of direct message interactions between this user and others.";
      u "  Each interaction includes from_user, to_user, text, and age information (in metadata).";
      [];
      u "Task:";
      u "1. Detect if there are signs of grooming or sexual exploitation risk.";
      u "2. Consider age differences (older messaging younger).";
      u "3. Output a " ++ dq ++ u "grooming_risk" ++ dq ++ u " level: " ++ dq ++ u "none" ++ dq ++ u ", " ++ dq ++ u "low" ++ dq ++ u ", " ++ dq ++ u "medium" ++ dq ++ u ", " ++ dq ++ u "high" ++ dq ++ u ", " ++ dq ++ u "critical" ++ dq ++ u ".";
      u "4. Provide key evidence snippets.";
      [];
      u "Output strict JSON:";
      [];
      u "{";
      u "  " ++ dq ++ u "grooming_risk" ++ dq ++ u ": " ++ dq ++ u "none" ++ dq ++ u ",";
      u "  " ++ dq ++ u "evidence" ++ dq ++ u ": [";
      u "    {";
      u "      " ++ dq ++ u "interaction_id" ++ dq ++ u ": " ++ dq ++ dq ++ u ",";
      u "      " ++ dq ++ u "text_snippet" ++ dq ++ u ": " ++ dq ++ dq ++ u ",";
      u "      " ++ dq ++ u "comment" ++ dq ++ u ": " ++ dq ++ dq;
      u "    }";
      u "  ],";
      u "  " ++ dq ++ u "summary" ++ dq ++ u ": " ++ dq ++ dq;
      u "}" ].

Definition policy_violation_agent_prompt : pystr :=
  text_block
    [ u "You are a Policy Violation Agent for " ++ PROJECT_NAME ++ u ".";
      [];
      u "You receive:";
      u "- Company safety policies text.";
      u "- Aggregated findings from other safety agents about a single user.";
      [];
      u "Task:";
      u "1. Map the findings to specific policy sections that are likely violated.";
      u "2. Determine overall severity: " ++ dq ++ u "low" ++ dq ++ u ", " ++ dq ++ u "medium" ++ dq ++ u ", " ++ dq ++ u "high" ++ dq ++ u ", " ++ dq ++ u "critical" ++ dq ++ u ".";
      u "3. Recommend an action:";
      u "   - " ++ dq ++ u "monitor" ++ dq;
      u "   - " ++ dq ++ u "warn" ++ dq;
      u "   - " ++ dq ++ u "restrict_features" ++ dq;
      u "   - " ++ dq ++ u "escalate_to_safety_team" ++ dq;
      u "   - " ++ dq ++ u "temporary_suspension" ++ dq;
      u "4. Provide a short explanation.";
      [];
      u "Output strict JSON:";
      [];
      u "{";
      u "  " ++ dq ++ u "violated_sections" ++ dq ++ u ": [],";
      u "  " ++ dq ++ u "overall_severity" ++ dq ++ u ": " ++ dq ++ u "low" ++ dq ++ u ",";
      u "  " ++ dq ++ u "recommended_action" ++ dq ++ u ": " ++ dq ++ dq ++ u ",";
      u "  " ++ dq ++ u "explanation" ++ dq ++ u ": " ++ dq ++ dq;
      u "}" ].

Definition report_generator_agent_prompt : pystr :=
  text_block
    [ u "You are a Safety Report Generator Agent for " ++ PROJECT_NAME ++ u ".";
      [];
      u "You receive structured JSON from several safety agents for ONE user:";
      u "- underage risk";
      u "- content risk";
      u "- interaction/grooming risk";
      u "- policy violation summary";
      [];
      u "Task:";
      u "1. Produce a clear, human-readable report (markdown-style).";
      u "2. Include:";
      u "   - short user summary";
      u "   - key risks";
      u "   - evidence examples";
      u "   - final recommended action";
      [];
      u "Output strict JSON:";
      [];
      u "{";
      u "  " ++ dq ++ u "risk_title" ++ dq ++ u ": " ++ dq ++ dq ++ u ",";
      u "  " ++ dq ++ u "overall_risk_score" ++ dq ++ u ": 0,";
      u "  " ++ dq ++ u "risk_summary" ++ dq ++ u ": " ++ dq ++ dq ++ u ",";
      u "  " ++ dq ++ u "markdown_report" ++ dq ++ u ": " ++ dq ++ dq;
      u "}" ].

Section Client.
(** The hosted endpoint: any deterministic function of its own state. *)
Variable World : Type.
Variable create : request -> World -> completion * World.
Variable float_repr : pystr -> pystr.

(** The state threaded through the program: the endpoint's state and the
    requests sent so far, oldest first. *)
Record session : Type := { world : World; sent : list request }.

Definition M (A : Type) : Type := session -> A * session.
Definition ret {A : Type} (a : A) : M A := fun s => (a, s).
Definition bind {A B : Type} (m : M A) (f : A -> M B) : M B :=
  fun s => let (a, s') := m s in f a s'.

Definition chat_completions_create (r : request) : M completion :=
  fun s =>
    let (c, w) := create r (world s) in
    (c, {| world := w; sent := sent s ++ [r] |}).

Definition json_dumps (v : value) : pystr := dumps float_repr false v.

Definition _run_json_agent (system_prompt user_content : pystr) (max_tokens : Z)
  : M value :=
  bind
    (chat_completions_create
       {| req_model := LLM_MODEL; req_system := system_prompt;
          req_user := user_content; req_max_tokens := max_tokens |})
    (fun resp =>
       ret
         match resp with
         | Raised e =>
             JDict [(u "error", JStr (u "LLM request failed: " ++ e))]
         | NoContent =>
             JDict [(u "error", JStr (u "unexpected LLM response format"))]
         | Content None =>
             (* json.loads(None) and None.rfind both raise *)
             JDict [(u "error", JStr (u "failed to parse JSON")); (u "raw", JNull)]
         | Content (Some content) =>
             match loads content with
             | Some v => v
             | None =>
                 let idx := rfind 123%N content in
                 if (idx =? -1)%Z then JNull   (* control leaves the function *)
                 else
                   match loads (slice_from idx content) with
                   | Some v => v
                   | None =>
                       JDict [(u "error", JStr (u "failed to parse JSON"));
                              (u "raw", JStr content)]
                   end
             end
         end).

Definition underage_risk_agent (user_profile posts : value) : M value :=
  let user_str := json_dumps user_profile in
  let posts_str := json_dumps posts in
  let user_content :=
    u "USER_PROFILE:" ++ [10%N] ++ user_str ++ [10%N; 10%N]
      ++ u "SAMPLE_POSTS:" ++ [10%N] ++ posts_str in
  _run_json_agent underage_risk_agent_prompt user_content 400.

Definition content_risk_agent (posts : value) : M value :=
  let posts_str := json_dumps posts in
  _run_json_agent content_risk_agent_prompt posts_str 1000.

Definition interaction_risk_agent (user_profile interactions : value) : M value :=
  let payload :=
    JDict [(u "user_profile", user_profile); (u "interactions", interactions)] in
  _run_json_agent interaction_risk_agent_prompt (json_dumps payload) 800.

Definition policy_violation_agent (policy_text : pystr) (aggregated_findings : value)
  : M value :=
  let payload :=
    JDict [(u "policies", JStr policy_text); (u "findings", aggregated_findings)] in
  _run_json_agent policy_violation_agent_prompt (json_dumps payload) 600.

Definition report_generator_agent
  (user_profile underage content interactions policy_result : value) : M value :=
  let payload :=
    JDict [(u "user_profile", user_profile);
           (u "underage", underage);
           (u "content", content);
           (u "interactions", interactions);
           (u "policy_result", policy_result)] in
  _run_json_agent report_generator_agent_prompt (json_dumps payload) 900.
End Client.

(** ** Reading the session *)

(** The error object of a request that raised with message [e]. *)
Definition request_failed (e : pystr) : Json.value :=
  Json.JDict [(u "error", Json.JStr (u "LLM request failed: " ++ e))].

(** Run from [s], the computation [m] sends exactly one request: to the
    model [LLM_MODEL], with the system message [prompt] and the token limit
    [limit], and with a user message that is JSON text for [decoded]. *)
Definition sends (World : Type) (m : M World Json.value) (s : session World)
    (prompt : pystr) (limit : Z) (decoded : Json.value) : Prop :=
  exists r, sent (snd (m s)) = sent s ++ [r]
            /\ req_model r = LLM_MODEL
            /\ req_system r = prompt
            /\ req_max_tokens r = limit
            /\ Json.loads (req_user r) = Some decoded.

End Agents.

(* ===================================================================== *)
(** * generate_synthetic_data.py                                          *)
(* ===================================================================== *)

Module Generator.

(** ** The [random] module

    The generator's state is an entropy tape and a cursor into it; every
    primitive draw reads one cell.  Quantifying over tapes covers every
    sequence of draws the Mersenne Twister can produce. *)
Record rng : Type := { tape : nat -> N; cursor : nat }.

Definition next (g : rng) : N * rng :=
  (tape g (cursor g), {| tape := tape g; cursor := S (cursor g) |}).

(** [_randbelow(n)] for [0 < n]. *)
Definition randbelow (n : nat) (g : rng) : nat * rng :=
  let (r, g') := next g in (N.to_nat r mod n, g').

(** [random.choice(seq)] for the non-empty sequence [x :: xs]. *)
Definition choice {A : Type} (x : A) (xs : list A) (g : rng) : A * rng :=
  let (i, g') := randbelow (length (x :: xs)) g in (nth i (x :: xs) x, g').

(** [random.randint(a, b)] for [a <= b]. *)
Definition randint (a b : Z) (g : rng) : Z * rng :=
  let (i, g') := randbelow (Z.to_nat (b - a + 1)) g in ((a + Z.of_nat i)%Z, g').

(** A binary fraction [num / 2^exp2]: the exact value of a double. *)
Record binary : Type := { num : N; exp2 : N }.

Definition binary_ltb (a b : binary) : bool :=
  (num a * 2 ^ exp2 b <? num b * 2 ^ exp2 a)%N.

(** [random.random()]: a multiple of [2^-53] in [[0, 1)]. *)
Definition random (g : rng) : binary * rng :=
  let (r, g') := next g in ({| num := r mod 2 ^ 53; exp2 := 53 |}, g').

(** The doubles the literals [0.15], [0.3] and [0.4] denote. *)
Definition f0_15 : binary := {| num := 5404319552844595; exp2 := 55 |}.
Definition f0_3 : binary := {| num := 5404319552844595; exp2 := 54 |}.
Definition f0_4 : binary := {| num := 3602879701896397; exp2 := 53 |}.

(** [pool[j] = x] *)
Fixpoint list_set {A : Type} (j : nat) (x : A) (l : list A) : list A :=
  match l, j with
  | [], _ => []
  | _ :: l', O => x :: l'
  | y :: l', S j' => y :: list_set j' x l'
  end.

(** [random.sample(population, 2)], by the pool algorithm the library runs
    for populations of up to 21 items (for larger ones it draws indices
    until they differ, which also yields two items at distinct positions).
    [None] is the [ValueError] of a population smaller than the sample. *)
Definition sample2 {A : Type} (population : list A) (g : rng)
  : option ((A * A) * rng) :=
  let n := length population in
  if n <? 2 then None
  else
    let pool := population in
    let (j1, g1) := randbelow n g in
    match nth_error pool j1, nth_error pool (n - 1) with
    | Some r0, Some last =>
        let pool' := list_set j1 last pool in
        let (j2, g2) := randbelow (n - 1) g1 in
        match nth_error pool' j2 with
        | Some r1 => Some ((r0, r1), g2)
        | None => None
        end
    | _, _ => None
    end.

(** [[f() for _ in range(n)]] *)
Fixpoint repeat_draw {A : Type} (n : nat) (f : rng -> A * rng) (g : rng)
  : list A * rng :=
  match n with
  | O => ([], g)
  | S n' =>
      let (x, g1) := f g in
      let (xs, g2) := repeat_draw n' f g1 in (x :: xs, g2)
  end.

(** ** The three tables *)

(** [pd.Timestamp(base) + pd.Timedelta(days=days)] *)
Record timestamp : Type := { base : pystr; days : Z }.

Record User : Type := {
  user_id : pystr;
  age : Z;
  account_type : pystr;
  created_at : timestamp
}.

Record Post : Type := {
  post_id : pystr;
  post_user_id : pystr;
  post_text : pystr;
  post_timestamp : timestamp
}.

Record Interaction : Type := {
  interaction_id : pystr;
  from_user : pystr;
  to_user : pystr;
  interaction_type : pystr;
  interaction_text : pystr;
  interaction_timestamp : timestamp
}.

Fixpoint zip4 (a : list pystr) (b : list Z) (c : list pystr) (d : list timestamp)
  : list User :=
  match a, b, c, d with
  | x :: a', y :: b', z :: c', w :: d' =>
      {| user_id := x; age := y; account_type := z; created_at := w |}
      :: zip4 a' b' c' d'
  | _, _, _, _ => []
  end.

Definition generate_users (n : nat) (start_date : pystr) (g : rng)
  : list User * rng :=
  let user_ids := List.map (fun i => u "u" ++ str_of_N (N.of_nat (i + 1))) (seq 0 n) in
  let (ages, g1) :=
    repeat_draw n (choice 13%Z [14; 15; 16; 17; 18; 21; 25; 30]%Z) g in
  let (account_types, g2) :=
    repeat_draw n (choice (u "standard") [u "creator"; u "business"]) g1 in
  let created_at :=
    List.map (fun i => {| base := start_date; days := Z.of_nat i |}) (seq 0 n) in
  (zip4 user_ids ages account_types created_at, g2).

Definition risky_self_harm : list pystr :=
  [ u "I feel like nothing matters anymore.";
    u "Sometimes I just want to disappear.";
    u "I have not eaten properly in days." ].

Definition risky_bully : list pystr :=
  [ u "You are so ugly lol.";
    u "Nobody likes you, just leave.";
    u "You are a loser, everyone knows it." ].

Definition risky_grooming : list pystr :=
  [ u "Don't tell your parents we talk here.";
    u "Keep our chats secret okay?";
    u "You can trust me, I" ++ [226; 8364; 8482]%N ++ u "m older and I know better." ].

Definition risky_substance : list pystr :=
  [ u "Got so drunk last night lol.";
    u "Trying pills for the first time haha.";
    u "Smoking every day now, feels great." ].

Definition safe : list pystr :=
  [ u "Exam went well today.";
    u "Had a great day with friends!";
    u "Practicing for my football match.";
    u "Studying hard for JEE.";
    u "Watching movies with family." ].

(** [random.choice(pool)] for one of the literal pools above. *)
Definition choice_of (pool : list pystr) (g : rng) : pystr * rng :=
  match pool with
  | x :: xs => choice x xs g
  | [] => ([], g)
  end.

Definition sample_post_text (user_age : Z) (g : rng) : pystr * rng :=
  let (bucket, g1) := random g in
  if (user_age <? 18)%Z then
    if binary_ltb bucket f0_15 then choice_of risky_self_harm g1
    else if binary_ltb bucket f0_3 then choice_of risky_bully g1
    else if binary_ltb bucket f0_4 then choice_of risky_grooming g1
    else choice_of safe g1
  else
    if binary_ltb bucket f0_15 then choice_of risky_substance g1
    else if binary_ltb bucket f0_3 then choice_of risky_grooming g1
    else if binary_ltb bucket f0_4 then choice_of risky_bully g1
    else choice_of safe g1.

(** The loops of [generate_posts]: [post_id] is the running counter. *)
Fixpoint posts_of_user (row : User) (k : nat) (start_ts : pystr) (post_id : N) (g : rng)
  : list Post * N * rng :=
  match k with
  | O => ([], post_id, g)
  | S k' =>
      let (text, g1) := sample_post_text (age row) g in
      let (d, g2) := randint 0 60 g1 in
      let p := {| post_id := u "p" ++ str_of_N post_id;
                  post_user_id := user_id row;
                  post_text := text;
                  post_timestamp := {| base := start_ts; days := d |} |} in
      match posts_of_user row k' start_ts (post_id + 1)%N g2 with
      | (rows, post_id', g3) => (p :: rows, post_id', g3)
      end
  end.

Fixpoint posts_loop (users_df : list User) (posts_per_user : nat) (start_ts : pystr)
    (post_id : N) (g : rng) : list Post * rng :=
  match users_df with
  | [] => ([], g)
  | row :: rest =>
      match posts_of_user row posts_per_user start_ts post_id g with
      | (rows, post_id', g1) =>
          let (rows', g2) := posts_loop rest posts_per_user start_ts post_id' g1 in
          (rows ++ rows', g2)
      end
  end.

Definition generate_posts (users_df : list User) (posts_per_user : nat)
    (start_ts : pystr) (g : rng) : list Post * rng :=
  posts_loop users_df posts_per_user start_ts 1%N g.

Definition dm_risky : list pystr :=
  [ u "Don't tell anyone we talk here.";
    u "I can send you pics but keep it secret.";
    u "We should meet alone sometime." ].

Definition dm_neutral : list pystr :=
  [ u "Hey, how are your exams going?";
    u "Let's play BGMI later.";
    u "Did you finish the homework?" ].

Definition sample_dm_text (older younger : pystr) (g : rng) : pystr * rng :=
  let (x, g1) := random g in
  choice_of (if binary_ltb x f0_4 then dm_risky else dm_neutral) g1.

(** The loop of [generate_interactions] from iteration [i] on, [k]
    iterations to go.  [None] is a raised exception ([ValueError] from
    [random.sample], [KeyError] from [ages[...]]). *)
Fixpoint interactions_loop (user_ids : list pystr) (ages : list (pystr * Z))
    (start_ts : pystr) (i : nat) (k : nat) (g : rng)
  : option (list Interaction * rng) :=
  match k with
  | O => Some ([], g)
  | S k' =>
      match sample2 user_ids g with
      | None => None
      | Some ((u1, u2), g1) =>
          match dict_get u1 ages, dict_get u2 ages with
          | Some a1, Some a2 =>
              let (older, younger) := if (a1 >? a2)%Z then (u1, u2) else (u2, u1) in
              let (text, g2) := sample_dm_text older younger g1 in
              let (d, g3) := randint 0 60 g2 in
              let row := {| interaction_id := u "i" ++ str_of_N (N.of_nat (i + 1));
                            from_user := older;
                            to_user := younger;
                            interaction_type := u "dm";
                            interaction_text := text;
                            interaction_timestamp := {| base := start_ts; days := d |} |} in
              match interactions_loop user_ids ages start_ts (S i) k' g3 with
              | Some (rows, g4) => Some (row :: rows, g4)
              | None => None
              end
          | _, _ => None
          end
      end
  end.

(** [dict(zip(users_df["user_id"], users_df["age"]))] *)
Definition ages_of (users_df : list User) : list (pystr * Z) :=
  dict_of_pairs (List.map (fun r => (user_id r, age r)) users_df).

Definition generate_interactions (users_df : list User) (n_interactions : nat)
    (start_ts : pystr) (g : rng) : option (list Interaction * rng) :=
  let user_ids := List.map user_id users_df in
  let ages := ages_of users_df in
  interactions_loop user_ids ages start_ts 0 n_interactions g.

(** ** Files *)

(** [str(Path(d) / name)] for a directory written without a trailing
    separator and a relative [name]. *)
Definition path_join (d name : pystr) : pystr := d ++ u "/" ++ name.

Inductive frame : Type :=
| UsersFrame (rows : list User)
| PostsFrame (rows : list Post)
| InteractionsFrame (rows : list Interaction).

(** [save_data]: the files it writes, in order, each with the table that
    goes into it. *)
Definition save_data (data_dir prefix : pystr) (users : list User) (posts : list Post)
    (interactions : list Interaction) : list (pystr * frame) :=
  [ (path_join data_dir (prefix ++ u "_users.csv"), UsersFrame users);
    (path_join data_dir (prefix ++ u "_posts.csv"), PostsFrame posts);
    (path_join data_dir (prefix ++ u "_interactions.csv"), InteractionsFrame interactions) ].

(** The namespace [parse_args] returns; [seed] only selects the tape. *)
Record args : Type := {
  arg_users : nat;
  arg_posts_per_user : nat;
  arg_interactions : nat;
  arg_out_dir : pystr;
  arg_prefix : pystr
}.

Definition default_args : args :=
  {| arg_users := 20; arg_posts_per_user := 5; arg_interactions := 60;
     arg_out_dir := u "data"; arg_prefix := u "safescroll" |}.

(** [main] for a run without [--seed]: the files written, or [None] when
    a generator raised. *)
Definition main (a : args) (g : rng) : option (list (pystr * frame)) :=
  let data_dir := arg_out_dir a in
  let (users, g1) := generate_users (arg_users a) (u "2024-01-01") g in
  let (posts, g2) := generate_posts users (arg_posts_per_user a) (u "2024-03-01") g1 in
  match generate_interactions users (arg_interactions a) (u "2024-03-01") g2 with
  | Some (interactions, _) =>
      Some (save_data data_dir (arg_prefix a) users posts interactions)
  | None => None
  end.

End Generator.

(* ===================================================================== *)
(** * app.py                                                              *)
(* ===================================================================== *)

Module App.
Import Json Agents.

Notation "x <- m ;; k" := (bind m (fun x => k))
  (at level 61, m at next level, right associativity).

Definition path_join (d name : pystr) : pystr := d ++ u "/" ++ name.

Definition POLICY_PATH : pystr := path_join (u "policies") (u "safety_policies.txt").

(** ** Loaders *)

Section Loaders.
(** [pd.read_csv] on the current file system: [None] when it raises
    (no file at the path). *)
Variable DataFrame : Type.
Variable read_csv : pystr -> option DataFrame.

Definition load_data : option (DataFrame * DataFrame * DataFrame) :=
  let data_dir := u "data" in
  match read_csv (path_join data_dir (u "users.csv")) with
  | None => None
  | Some users =>
      match read_csv (path_join data_dir (u "posts.csv")) with
      | None => None
      | Some posts =>
          match read_csv (path_join data_dir (u "interactions.csv")) with
          | None => None
          | Some interactions => Some (users, posts, interactions)
          end
      end
  end.
End Loaders.

(** What sits at a path.  A regular file carries its bytes decoded as UTF-8
    text, or [None] when they are not valid UTF-8. *)
Inductive node : Type :=
| Directory
| File (decoded : option pystr).

Definition filesystem : Type := pystr -> option node.

(** [Path.exists]: true for files and directories alike. *)
Definition path_exists (fs : filesystem) (p : pystr) : bool :=
  match fs p with Some _ => true | None => false end.

(** [Path.read_text(encoding="utf-8")]; [None] when it raises
    ([IsADirectoryError], [UnicodeDecodeError], [FileNotFoundError]). *)
Definition read_text (fs : filesystem) (p : pystr) : option pystr :=
  match fs p with
  | Some (File (Some text)) => Some text
  | _ => None
  end.

(** [load_policies]; [None] when it raises. *)
Definition load_policies (fs : filesystem) : option pystr :=
  if path_exists fs POLICY_PATH then read_text fs POLICY_PATH
  else Some (u "No policies found.").

(** ** The tables as read back from the CSV files *)

Record UserRow : Type := {
  user_id : pystr;
  age : Z;
  account_type : pystr;
  created_at : pystr
}.

Record PostRow : Type := {
  post_id : pystr;
  post_user_id : pystr;
  post_text : pystr;
  post_timestamp : pystr
}.

Record InteractionRow : Type := {
  interaction_id : pystr;
  from_user : pystr;
  to_user : pystr;
  interaction_type : pystr;
  interaction_text : pystr;
  interaction_timestamp : pystr
}.

(** [row.to_dict()] *)
Definition user_to_dict (r : UserRow) : value :=
  JDict [ (u "user_id", JStr (user_id r));
          (u "age", JInt (age r));
          (u "account_type", JStr (account_type r));
          (u "created_at", JStr (created_at r)) ].

Definition interaction_to_dict (r : InteractionRow) : list (pystr * value) :=
  [ (u "interaction_id", JStr (interaction_id r));
    (u "from_user", JStr (from_user r));
    (u "to_user", JStr (to_user r));
    (u "type", JStr (interaction_type r));
    (u "text", JStr (interaction_text r));
    (u "timestamp", JStr (interaction_timestamp r)) ].

(** [user_posts_df[["post_id", "text"]].to_dict(orient="records")] *)
Definition posts_records (df : list PostRow) : value :=
  JList (List.map (fun r => JDict [ (u "post_id", JStr (post_id r));
                                    (u "text", JStr (post_text r)) ]) df).

(** ** The mocked results of demo mode *)

Definition demo_underage_res : value :=
  JDict
    [ (u "is_minor_suspected", JBool true);
      (u "underage_misrepresentation_risk", JInt 72);
      (u "reason", JStr (u "User posts indicate teenage language patterns and age-related topics.")) ].

Definition demo_content_res (user_posts_df : list PostRow) : value :=
  JDict
    [ (u "per_post", JList [ JDict
        [ (u "post_id", JStr (match user_posts_df with r :: _ => post_id r | [] => u "p1" end));
          (u "text", JStr (match user_posts_df with r :: _ => post_text r | [] => [] end));
          (u "bullying_risk", JStr (u "none"));
          (u "self_harm_risk", JStr (u "low"));
          (u "sexual_exploitation_risk", JStr (u "none"));
          (u "substance_abuse_risk", JStr (u "low"));
          (u "notes", JStr (u "Some references to substance use and low-level self-harm language.")) ] ]);
      (u "overall", JDict
        [ (u "bullying_risk", JStr (u "low"));
          (u "self_harm_risk", JStr (u "low"));
          (u "sexual_exploitation_risk", JStr (u "none"));
          (u "substance_abuse_risk", JStr (u "low"));
          (u "summary", JStr (u "Low-to-moderate concerns primarily around substance references and self-harm wording.")) ]) ].

Definition demo_interaction_res (user_interactions_df : list InteractionRow) : value :=
  JDict
    [ (u "grooming_risk", JStr (u "medium"));
      (u "evidence", JList [ JDict
        [ (u "interaction_id",
           JStr (match user_interactions_df with r :: _ => interaction_id r | [] => u "i1" end));
          (u "text_snippet",
           JStr (match user_interactions_df with
                 | r :: _ => interaction_text r
                 | [] => u "Don't tell anyone we talk here."
                 end));
          (u "comment", JStr (u "Secrecy and older-user behavior detected.")) ] ]);
      (u "summary", JStr (u "Some age-imbalanced conversations and secrecy cues were observed.")) ].

Definition demo_policy_res : value :=
  JDict
    [ (u "violated_sections", JList [ JStr (u "Underage Safety"); JStr (u "Substance Use Policy") ]);
      (u "overall_severity", JStr (u "medium"));
      (u "recommended_action", JStr (u "monitor"));
      (u "explanation", JStr (u "Behavior matches medium-risk guidelines; recommend monitoring and a warning if escalates.")) ].

Definition demo_report_res : value :=
  JDict
    [ (u "risk_title", JStr (PROJECT_NAME ++ u " Automated Safety Report"));
      (u "overall_risk_score", JInt 62);
      (u "risk_summary", JStr (u "Moderate concerns detected. Monitoring recommended."));
      (u "markdown_report",
       JStr (u "### Summary" ++ [10%N]
             ++ u "Moderate concerns detected in posts and DMs. Evidence suggests age-imbalanced interactions and mentions of substance use. Recommended action: monitor and warn if behavior escalates."
             ++ [10%N] ++ [10%N] ++ u "### Evidence" ++ [10%N]
             ++ u "- Secrecy in DMs: 'Don't tell anyone we talk here.'" ++ [10%N]
             ++ u "- Post: 'Trying pills for the first time haha.'" ++ [10%N] ++ [10%N]
             ++ u "### Recommendation" ++ [10%N]
             ++ u "- Monitor the account for escalation" ++ [10%N]
             ++ u "- Send a precautionary warning message" ++ [10%N]
             ++ u "- Escalate to human safety team if further evidence appears.")) ].

(** ** main *)

(** The five results the report view renders. *)
Record results : Type := {
  underage_res : value;
  content_res : value;
  interaction_res : value;
  policy_res : value;
  report_res : value
}.

(** How one run of the script ends, as far as the audit goes. *)
Inductive outcome : Type :=
| IndexError                 (* no row of the users table has the selected id *)
| NoAudit                    (* the button was not pressed *)
| KeyRefused                 (* [st.error(...)] and [return] *)
| Audited (r : results).

(** [bool(os.getenv("OPENAI_API_KEY"))] *)
Definition key_present (key : option pystr) : bool :=
  match key with
  | Some (_ :: _) => true
  | _ => false
  end.

Definition PLACEHOLDER : pystr := u "YOUR_OPENAI_API_KEY_HERE".

Section Main.
Variable World : Type.
Variable create : request -> World -> completion * World.
Variable float_repr : pystr -> pystr.

(** The loop that builds [inter_payload]. *)
Definition inter_payload_of (users : list UserRow) (df : list InteractionRow) : value :=
  let users_age_map :=
    dict_of_pairs (List.map (fun r => (user_id r, age r)) users) in
  let age_of (k : pystr) : Z :=
    match dict_get k users_age_map with Some a => a | None => (-1)%Z end in
  JList
    (List.map
       (fun row =>
          let r := interaction_to_dict row in
          let r := dict_set (u "from_age") (JInt (age_of (from_user row))) r in
          let r := dict_set (u "to_age") (JInt (age_of (to_user row))) r in
          JDict r)
       df).

(** [main], from the loaded tables on.  [env_key] is
    [os.getenv("OPENAI_API_KEY")], [policies_text] the result of
    [load_policies], [selected_user_id] the choice in the select box and
    [button] whether the audit button was pressed in this run. *)
Definition main (env_key : option pystr)
    (users : list UserRow) (posts : list PostRow) (interactions : list InteractionRow)
    (policies_text : pystr) (selected_user_id : pystr) (button : bool)
  : M World outcome :=
  match List.find (fun r => pystr_eqb (user_id r) selected_user_id) users with
  | None => ret IndexError
  | Some row =>
      let user_row := user_to_dict row in
      let user_posts_df :=
        List.filter (fun p => pystr_eqb (post_user_id p) selected_user_id) posts in
      let user_interactions_df :=
        List.filter (fun i => pystr_eqb (from_user i) selected_user_id
                              || pystr_eqb (to_user i) selected_user_id) interactions in
      let DEMO_MODE := negb (key_present env_key) in
      if button then
        if DEMO_MODE then
          ret (Audited {| underage_res := demo_underage_res;
                          content_res := demo_content_res user_posts_df;
                          interaction_res := demo_interaction_res user_interactions_df;
                          policy_res := demo_policy_res;
                          report_res := demo_report_res |})
        else
          let api_key := match env_key with Some k => k | None => [] end in
          if negb (key_present (Some api_key)) || contains PLACEHOLDER api_key then
            ret KeyRefused
          else
            let posts_payload := posts_records user_posts_df in
            let inter_payload := inter_payload_of users user_interactions_df in
            underage_res <- underage_risk_agent create float_repr user_row posts_payload ;;
            content_res <- content_risk_agent create float_repr posts_payload ;;
            interaction_res <- interaction_risk_agent create float_repr user_row inter_payload ;;
            let aggregated_findings :=
              JDict [ (u "underage", underage_res);
                      (u "content", content_res);
                      (u "interactions", interaction_res) ] in
            policy_res <- policy_violation_agent create float_repr policies_text aggregated_findings ;;
            report_res <-
              report_generator_agent create float_repr
                user_row underage_res content_res interaction_res policy_res ;;
            ret (Audited {| underage_res := underage_res;
                            content_res := content_res;
                            interaction_res := interaction_res;
                            policy_res := policy_res;
                            report_res := report_res |})
      else ret NoAudit
  end.
End Main.

(** ** The content column of the report view *)

(** ["overall" in content_res]: key membership for a dict, an equal item for
    a list, a substring for a string; [None] is the [TypeError] of any other
    value. *)
Definition has_overall (content_res : value) : option bool :=
  match content_res with
  | JDict d =>
      Some (match dict_get (u "overall") d with Some _ => true | None => false end)
  | JList items =>
      Some (existsb (fun x => match x with
                              | JStr s => pystr_eqb s (u "overall")
                              | _ => false
                              end) items)
  | JStr s => Some (contains (u "overall") s)
  | _ => None
  end.

Definition risk_map : list (pystr * Z) :=
  [ (u "none", 0%Z); (u "low", 1%Z); (u "medium", 2%Z); (u "high", 3%Z);
    (u "critical", 4%Z) ].

(** [risk_map.get(overall.get(key, "none"), 0)]; [None] is the [TypeError]
    of an unhashable level (a list or a dict). *)
Definition severity (overall : list (pystr * value)) (key : pystr) : option Z :=
  let level :=
    match dict_get key overall with Some x => x | None => JStr (u "none") end in
  match level with
  | JStr s => Some (match dict_get s risk_map with Some n => n | None => 0%Z end)
  | JList _ => None
  | JDict _ => None
  | _ => Some 0%Z
  end.

(** What the chart block shows: the four bars, or the line that says no
    aggregated data is available. *)
Inductive chart : Type :=
| NoChart
| Bars (bullying selfharm sexual substance : Z).

(** The two blocks of [main] that read [content_res] after the audit (the
    aggregated-content JSON view and the risk chart); [None] when one of
    them raises. *)
Definition content_chart (content_res : value) : option chart :=
  match has_overall content_res with
  | None => None
  | Some false => Some NoChart
  | Some true =>
      match content_res with
      | JDict d =>
          match dict_get (u "overall") d with
          | Some (JDict overall) =>
              match severity overall (u "bullying_risk"),
                    severity overall (u "self_harm_risk"),
                    severity overall (u "sexual_exploitation_risk"),
                    severity overall (u "substance_abuse_risk") with
              | Some b, Some s, Some x, Some a => Some (Bars b s x a)
              | _, _, _, _ => None
              end
          | _ => None          (* [overall.get] on a value that is no dict *)
          end
      | _ => None              (* [content_res["overall"]] on a str or a list *)
      end
  end.

(** The age the users table declares for [uid], as [inter_payload] reports
    it: the age of the row with that id, or [-1] when no row has it. *)
Definition declared_age (users : list UserRow) (uid : pystr) (a : Z) : Prop :=
  (exists r, In r users /\ user_id r = uid /\ age r = a)
  \/ (~ In uid (List.map user_id users) /\ a = (-1)%Z).

End App.

(* ===================================================================== *)
(** * The two programs side by side                                       *)
(* ===================================================================== *)

(** The view [pd.read_csv] has of a directory tree that holds exactly the
    files one run of the generator wrote. *)
Definition read_back (files : list (pystr * Generator.frame)) (p : pystr)
  : option Generator.frame :=
  match List.find (fun f => pystr_eqb (fst f) p) files with
  | Some f => Some (snd f)
  | None => None
  end.

(** The endpoint that answers every request with the same completion. *)
Definition constant_endpoint (c : Agents.completion)
  : Agents.request -> unit -> Agents.completion * unit :=
  fun _ w => (c, w).

(** A session in which nothing has been sent yet. *)
Definition fresh (W : Type) (w : W) : Agents.session W :=
  {| Agents.world := w; Agents.sent := [] |}.

(** ** Sample inputs *)

(** An entropy tape to run the generator on. *)
Definition count_tape : Generator.rng :=
  {| Generator.tape := fun i => N.of_nat (7 * i + 3); Generator.cursor := 0 |}.

(** A file system with a directory where the policy file should be. *)
Definition policies_is_directory : App.filesystem :=
  fun p => if pystr_eqb p App.POLICY_PATH then Some App.Directory else None.

(** Two users, a post of each and a message between them. *)
Definition sample_user_1 : App.UserRow :=
  {| App.user_id := u "u1"; App.age := 14; App.account_type := u "standard";
     App.created_at := u "2024-01-01" |}.

Definition sample_user_2 : App.UserRow :=
  {| App.user_id := u "u2"; App.age := 30; App.account_type := u "creator";
     App.created_at := u "2024-01-02" |}.

Definition sample_users : list App.UserRow := [ sample_user_1; sample_user_2 ].

Definition sample_posts : list App.PostRow :=
  [ {| App.post_id := u "p1"; App.post_user_id := u "u1";
       App.post_text := u "Exam went well today."; App.post_timestamp := u "2024-03-05" |};
    {| App.post_id := u "p6"; App.post_user_id := u "u2";
       App.post_text := u "Got so drunk last night lol."; App.post_timestamp := u "2024-03-09" |} ].

Definition sample_interactions : list App.InteractionRow :=
  [ {| App.interaction_id := u "i1"; App.from_user := u "u2"; App.to_user := u "u1";
       App.interaction_type := u "dm"; App.interaction_text := u "Let's play BGMI later.";
       App.interaction_timestamp := u "2024-03-07" |} ].

(** A reply of the shape the prompts ask for, with a non-ASCII string and
    nested values. *)
Definition sample_reply : list (pystr * Json.value) :=
  [ (u "is_minor_suspected", Json.JBool true);
    (u "underage_misrepresentation_risk", Json.JInt 72);
    (u "reason", Json.JStr (u "na" ++ [239; 128512; 10]%N ++ u "ve \ style"));
    (u "evidence", Json.JList [ Json.JNull; Json.JInt (-3); Json.JDict [];
                                Json.JDict [ (u "post_id", Json.JStr (u "p1")) ] ]) ].

(** The text of a small JSON object, the object, and a nested one. *)
Definition sample_object_text : pystr :=
  u "{" ++ Agents.dq ++ u "a" ++ Agents.dq ++ u ": 1}".

Definition sample_object : list (pystr * Json.value) := [ (u "a", Json.JInt 1) ].

Definition sample_nested_text : pystr :=
  u "{" ++ Agents.dq ++ u "a" ++ Agents.dq ++ u ": {" ++ Agents.dq ++ u "b" ++ Agents.dq
    ++ u ": 1}}".

(* ===================================================================== *)
(** * Facts about strings and dicts                                       *)
(* ===================================================================== *)

Lemma pystr_eqb_refl (a : pystr) : pystr_eqb a a = true.
Proof.
  induction a as [|x a IH]; simpl; [reflexivity|].
  now rewrite N.eqb_refl, IH.
Qed.

Lemma pystr_eqb_eq (a b : pystr) : pystr_eqb a b = true <-> a = b.
Proof.
  split.
  - revert b; induction a as [|x a IH]; intros [|y b]; simpl; try discriminate; auto.
    intros H. apply andb_true_iff in H as [Hx Hr].
    apply N.eqb_eq in Hx. f_equal; auto.
  - intros ->. apply pystr_eqb_refl.
Qed.

Lemma pystr_eqb_neq (a b : pystr) : a <> b -> pystr_eqb a b = false.
Proof.
  intros H. destruct (pystr_eqb a b) eqn:E; [|reflexivity].
  apply pystr_eqb_eq in E. contradiction.
Qed.

Lemma pystr_eqb_false (a b : pystr) : pystr_eqb a b = false -> a <> b.
Proof.
  intros H ->. rewrite pystr_eqb_refl in H. discriminate.
Qed.

(** Two strings that end in different suffixes of one length differ. *)
Lemma suffix_differs (x y s1 s2 : pystr) :
  length s1 = length s2 -> s1 <> s2 -> x ++ s1 <> y ++ s2.
Proof.
  intros Hlen Hne Heq. apply Hne.
  assert (H : firstn (length s1) (rev (x ++ s1)) = firstn (length s1) (rev (y ++ s2)))
    by now rewrite Heq.
  rewrite !rev_app_distr in H.
  rewrite <- (length_rev s1) in H at 1.
  rewrite Hlen in H. rewrite <- (length_rev s2) in H.
  rewrite !firstn_app, !Nat.sub_diag, !firstn_all in H. simpl in H.
  rewrite !app_nil_r in H.
  rewrite <- (rev_involutive s1), <- (rev_involutive s2). now f_equal.
Qed.

Section DictFacts.
Variable A : Type.
Implicit Types (d : list (pystr * A)) (k : pystr) (v : A).

Lemma dict_get_set_same k v d : dict_get k (dict_set k v d) = Some v.
Proof.
  induction d as [|[k' v'] d IH]; simpl.
  - now rewrite pystr_eqb_refl.
  - destruct (pystr_eqb k' k) eqn:E; simpl; rewrite E; auto.
Qed.

Lemma dict_get_set_other k k' v d :
  k <> k' -> dict_get k' (dict_set k v d) = dict_get k' d.
Proof.
  intros Hne. induction d as [|[k0 v0] d IH]; simpl.
  - rewrite pystr_eqb_neq by assumption. reflexivity.
  - destruct (pystr_eqb k0 k) eqn:E; simpl.
    + apply pystr_eqb_eq in E. subst k0.
      now rewrite pystr_eqb_neq by assumption.
    + now rewrite IH.
Qed.

Lemma dict_set_keys_in k v d k0 :
  In k0 (List.map fst (dict_set k v d)) -> k0 = k \/ In k0 (List.map fst d).
Proof.
  induction d as [|[k' v'] d IH]; simpl.
  - intros [H|[]]; auto.
  - destruct (pystr_eqb k' k) eqn:E; simpl; intros [H|H]; auto.
    destruct (IH H); auto.
Qed.

(** Setting a key that is not there appends it. *)
Lemma dict_set_fresh k v d :
  ~ In k (List.map fst d) -> dict_set k v d = d ++ [(k, v)].
Proof.
  induction d as [|[k' v'] d IH]; simpl; intros Hn; [reflexivity|].
  rewrite pystr_eqb_neq by (intros ->; apply Hn; now left).
  f_equal. apply IH. intros H. apply Hn. now right.
Qed.

Lemma fold_dict_set_nodup (ps acc : list (pystr * A)) :
  NoDup (List.map fst (acc ++ ps)) ->
  fold_left (fun d kv => dict_set (fst kv) (snd kv) d) ps acc = acc ++ ps.
Proof.
  revert acc. induction ps as [|[k v] ps IH]; intros acc Hnd; simpl.
  - now rewrite app_nil_r.
  - rewrite dict_set_fresh.
    + rewrite IH; rewrite <- app_assoc; simpl; auto.
    + rewrite map_app in Hnd. simpl in Hnd.
      apply NoDup_remove_2 in Hnd. intros H. apply Hnd.
      apply in_or_app. now left.
Qed.

(** [dict(pairs)] of pairs with distinct keys is the pairs themselves. *)
Lemma dict_of_pairs_nodup (ps : list (pystr * A)) :
  NoDup (List.map fst ps) -> dict_of_pairs ps = ps.
Proof.
  intros H. unfold dict_of_pairs. now rewrite fold_dict_set_nodup.
Qed.

Lemma fold_dict_set_get (ps acc : list (pystr * A)) k :
  In k (List.map fst ps) \/ In k (List.map fst acc) ->
  exists v, dict_get k (fold_left (fun d kv => dict_set (fst kv) (snd kv) d) ps acc)
            = Some v
            /\ (In (k, v) ps \/ In (k, v) acc).
Proof.
  revert acc. induction ps as [|[k0 v0] ps IH]; intros acc H; simpl.
  - destruct H as [[]|H].
    induction acc as [|[k1 v1] acc IHa]; simpl in *; [contradiction|].
    destruct (pystr_eqb k1 k) eqn:E.
    + apply pystr_eqb_eq in E. subst. eauto.
    + destruct H as [H|H]; [subst; now rewrite pystr_eqb_refl in E|].
      destruct (IHa H) as (v & Hv & [[]|Hin]). eauto.
  - destruct (IH (dict_set k0 v0 acc)) as (v & Hv & Hin).
    + destruct H as [[H|H]|H]; simpl in *; auto.
      * subst. right. clear. induction acc as [|[k1 v1] acc IHa]; simpl; auto.
        destruct (pystr_eqb k1 k) eqn:E; simpl; auto.
        apply pystr_eqb_eq in E. auto.
      * right. clear - H. induction acc as [|[k1 v1] acc IHa]; simpl in *; [contradiction|].
        destruct (pystr_eqb k1 k0) eqn:E; simpl; destruct H; auto.
    + exists v. split; [assumption|].
      destruct Hin as [Hin|Hin]; auto.
      clear - Hin. revert Hin.
      induction acc as [|[k1 v1] acc IHa]; simpl.
      * intros [H|[]]. inversion H; subst. auto.
      * destruct (pystr_eqb k1 k0) eqn:E; simpl.
        -- intros [H|H]; [|now auto].
           inversion H; subst. apply pystr_eqb_eq in E. subst. auto.
        -- intros [H|H]; [now auto|]. destruct (IHa H) as [?|?]; auto.
Qed.
End DictFacts.

Lemma codes_uint_codes (d : Decimal.uint) : codes_uint (uint_codes d) = d.
Proof. induction d; simpl; now f_equal. Qed.

Lemma uint_codes_inj (d d' : Decimal.uint) : uint_codes d = uint_codes d' -> d = d'.
Proof.
  intros H. rewrite <- (codes_uint_codes d), <- (codes_uint_codes d'). now f_equal.
Qed.

Lemma str_of_N_inj (n m : N) : str_of_N n = str_of_N m -> n = m.
Proof.
  intros H. apply DecimalN.Unsigned.to_uint_inj. now apply uint_codes_inj.
Qed.

Lemma N_of_digits_str (n : N) : N_of_digits (str_of_N n) = n.
Proof.
  unfold N_of_digits, str_of_N. rewrite codes_uint_codes.
  apply DecimalN.Unsigned.of_to.
Qed.

(* ===================================================================== *)
(** * Facts about the [json] module                                      *)
(* ===================================================================== *)

Section StringFacts.
Import Json.
Local Open Scope N_scope.

Lemma hexval_hexdigit (d : N) : d < 16 -> hexval (hexdigit d) = Some d.
Proof.
  intros H.
  assert (Hd : d = 0 \/ d = 1 \/ d = 2 \/ d = 3 \/ d = 4 \/ d = 5 \/ d = 6 \/ d = 7
               \/ d = 8 \/ d = 9 \/ d = 10 \/ d = 11 \/ d = 12 \/ d = 13 \/ d = 14
               \/ d = 15) by lia.
  repeat (destruct Hd as [->|Hd]; [reflexivity|]). subst. reflexivity.
Qed.

Lemma hex4_digits (n : N) :
  n < 65536 ->
  4096 * (n / 4096 mod 16) + 256 * (n / 256 mod 16) + 16 * (n / 16 mod 16) + n mod 16 = n.
Proof.
  intros H.
  pose proof (N.div_mod n 16 ltac:(lia)) as H0.
  pose proof (N.div_mod (n / 16) 16 ltac:(lia)) as H1.
  pose proof (N.div_mod (n / 16 / 16) 16 ltac:(lia)) as H2.
  pose proof (N.mod_upper_bound n 16 ltac:(lia)).
  pose proof (N.mod_upper_bound (n / 16) 16 ltac:(lia)).
  pose proof (N.mod_upper_bound (n / 16 / 16) 16 ltac:(lia)).
  rewrite !N.Div0.div_div in * by lia. change (16 * 16) with 256 in *.
  change (256 * 16) with 4096 in *.
  assert (Hsmall : n / 4096 < 16) by (apply N.Div0.div_lt_upper_bound; lia).
  rewrite (N.mod_small (n / 4096) 16) by assumption.
  lia.
Qed.

Lemma decode_hex4 (n : N) (tail : pystr) :
  n < 65536 -> decode_uXXXX (hex4 n ++ tail) = Some (n, tail).
Proof.
  intros H. unfold hex4, decode_uXXXX. cbn [app].
  rewrite !hexval_hexdigit by (apply N.mod_upper_bound; lia).
  now rewrite hex4_digits.
Qed.

Lemma scalarb_spec (c : N) :
  scalarb c = true <-> c < 55296 \/ (57343 < c /\ c < 1114112).
Proof.
  unfold scalarb. rewrite orb_true_iff, andb_true_iff, !N.ltb_lt. tauto.
Qed.

(** One character of an encoded string, read back.  With
    [ensure_ascii] off nothing is asked of the character. *)
Lemma scanstring_escape_char (ensure_ascii : bool) (c : N) (tail : pystr) (fuel : nat) :
  ensure_ascii = false \/ scalarb c = true ->
  scanstring (S fuel) (escape_char ensure_ascii c ++ tail)
  = cons_ok c (scanstring fuel tail).
Proof.
  intros Hc. unfold escape_char.
  destruct (N.eqb_spec c 34) as [->|N34]; [reflexivity|].
  destruct (N.eqb_spec c 92) as [->|N92]; [reflexivity|].
  destruct (N.eqb_spec c 10) as [->|N10]; [reflexivity|].
  destruct (N.eqb_spec c 13) as [->|N13]; [reflexivity|].
  destruct (N.eqb_spec c 9) as [->|N9]; [reflexivity|].
  destruct (N.eqb_spec c 8) as [->|N8]; [reflexivity|].
  destruct (N.eqb_spec c 12) as [->|N12]; [reflexivity|].
  destruct (N.ltb_spec c 32) as [Hlow|Hprint].
  { unfold u_escape. cbn [app scanstring N.eqb Pos.eqb].
    rewrite decode_hex4 by lia.
    replace (is_high_surrogate c) with false; [reflexivity|].
    unfold is_high_surrogate. symmetry. apply andb_false_iff. left.
    apply N.leb_gt. lia. }
  destruct (ensure_ascii && (126 <? c)) eqn:Eesc.
  - apply andb_true_iff in Eesc as [-> Hhigh]. apply N.ltb_lt in Hhigh.
    destruct Hc as [Hc|Hc]; [discriminate|]. apply scalarb_spec in Hc.
    destruct (N.ltb_spec c 65536) as [Hbmp|Hastral].
    + unfold u_escape. cbn [app scanstring N.eqb Pos.eqb].
      rewrite decode_hex4 by lia.
      replace (is_high_surrogate c) with false; [reflexivity|].
      unfold is_high_surrogate. symmetry. apply andb_false_iff.
      destruct Hc as [Hc|Hc]; [left; apply N.leb_gt; lia|right; apply N.leb_gt; lia].
    + assert (Hc' : c < 1114112) by lia.
      remember (c - 65536) as n eqn:En.
      assert (Hn : n < 1048576) by lia.
      assert (Hq : n / 1024 < 1024) by (apply N.Div0.div_lt_upper_bound; lia).
      pose proof (N.mod_upper_bound n 1024 ltac:(lia)) as Hr.
      pose proof (N.div_mod n 1024 ltac:(lia)) as Hdm.
      rewrite (N.mod_small (n / 1024) 1024) by assumption.
      remember (n / 1024) as hi eqn:Ehi. remember (n mod 1024) as lo eqn:Elo.
      clear Ehi Elo.
      unfold u_escape. rewrite <- app_assoc.
      cbn [app scanstring N.eqb Pos.eqb].
      rewrite decode_hex4 by lia.
      replace (is_high_surrogate (55296 + hi)) with true
        by (unfold is_high_surrogate; symmetry; apply andb_true_iff;
            split; apply N.leb_le; lia).
      cbn [strip_prefix N.eqb Pos.eqb].
      rewrite decode_hex4 by lia.
      replace (is_low_surrogate (56320 + lo)) with true
        by (unfold is_low_surrogate; symmetry; apply andb_true_iff;
            split; apply N.leb_le; lia).
      replace (65536 + ((55296 + hi - 55296) * 1024 + (56320 + lo - 56320)))
        with c by lia.
      reflexivity.
  - cbn [app scanstring].
    rewrite (proj2 (N.eqb_neq c 34) N34), (proj2 (N.eqb_neq c 92) N92).
    rewrite (proj2 (N.ltb_ge c 32) Hprint). reflexivity.
Qed.

Lemma escape_char_nonempty (ensure_ascii : bool) (c : N) :
  (1 <= length (escape_char ensure_ascii c))%nat.
Proof.
  unfold escape_char, u_escape.
  repeat match goal with
         | |- context [if ?b then _ else _] => destruct b
         end; rewrite ?length_app; simpl; lia.
Qed.

Lemma scanstring_encoded (ensure_ascii : bool) (s : pystr) :
  ensure_ascii = false \/ forallb scalarb s = true ->
  forall (fuel : nat) (rest : pystr),
    (length s < fuel)%nat ->
    scanstring fuel (flat_map (escape_char ensure_ascii) s ++ 34 :: rest) = Ok s rest.
Proof.
  intros Hs. induction s as [|c s IH]; intros fuel rest Hfuel.
  - destruct fuel; [simpl in Hfuel; lia|]. reflexivity.
  - destruct fuel as [|fuel]; [simpl in Hfuel; lia|].
    cbn [flat_map]. rewrite <- app_assoc.
    rewrite scanstring_escape_char.
    + rewrite IH; [reflexivity| |simpl in Hfuel; lia].
      destruct Hs as [Hs|Hs]; [now left|right].
      simpl in Hs. now apply andb_true_iff in Hs.
    + destruct Hs as [Hs|Hs]; [now left|right].
      simpl in Hs. now apply andb_true_iff in Hs.
Qed.

Lemma flat_map_escape_length (ensure_ascii : bool) (s : pystr) :
  (length s <= length (flat_map (escape_char ensure_ascii) s))%nat.
Proof.
  induction s as [|c s IH]; simpl; [lia|].
  rewrite length_app. pose proof (escape_char_nonempty ensure_ascii c). lia.
Qed.

(** An encoded string, read back from after its opening quote. *)
Lemma py_scanstring_encoded (ensure_ascii : bool) (s rest : pystr) :
  ensure_ascii = false \/ forallb scalarb s = true ->
  py_scanstring (flat_map (escape_char ensure_ascii) s ++ 34 :: rest) = Ok s rest.
Proof.
  intros Hs. unfold py_scanstring. apply scanstring_encoded; [assumption|].
  rewrite length_app. pose proof (flat_map_escape_length ensure_ascii s). simpl. lia.
Qed.
End StringFacts.

Section NumberFacts.
Import Json.

Lemma uint_codes_digits (d : Decimal.uint) :
  Forall (fun c => is_digit c = true) (uint_codes d).
Proof. induction d; simpl; constructor; auto. Qed.

Lemma span_digits_app (ds rest : pystr) :
  Forall (fun c => is_digit c = true) ds ->
  match rest with [] => True | c :: _ => is_digit c = false end ->
  span_digits (ds ++ rest) = (ds, rest).
Proof.
  intros Hds Hrest. induction Hds as [|c ds Hc Hds IH]; simpl.
  - destruct rest as [|c rest]; [reflexivity|]. simpl. now rewrite Hrest.
  - now rewrite Hc, IH.
Qed.

(** The decimal digits of a positive number start with a non-zero digit. *)
Lemma pos_to_uint_head (p : positive) :
  exists c ds, uint_codes (Pos.to_uint p) = c :: ds
               /\ is_digit c = true /\ c <> 48%N.
Proof.
  pose proof (DecimalPos.Unsigned.to_of (Pos.to_uint p)) as Hnorm.
  rewrite DecimalPos.Unsigned.of_to in Hnorm. simpl in Hnorm.
  pose proof (DecimalPos.Unsigned.to_uint_nonzero p) as Hnz.
  pose proof (DecimalPos.Unsigned.to_uint_nonnil p) as Hnn.
  destruct (Pos.to_uint p) as [|d|d|d|d|d|d|d|d|d|d] eqn:E;
    try (simpl; eexists; eexists; split; [reflexivity|split; [reflexivity|discriminate]]).
  - congruence.
  - exfalso. rewrite DecimalFacts.unorm_D0 in Hnorm.
    destruct d as [|e|e|e|e|e|e|e|e|e|e] eqn:Ed; [apply Hnz; reflexivity| ..];
      match type of Hnorm with
      | _ = Decimal.unorm ?x =>
          pose proof (@DecimalFacts.nb_digits_unorm x ltac:(discriminate)) as Hlen;
          rewrite <- Hnorm in Hlen; simpl in Hlen; lia
      end.
Qed.

Lemma ends_number_spec (rest : pystr) :
  ends_number rest = true ->
  match rest with
  | [] => True
  | c :: _ => is_digit c = false /\ c <> 46%N /\ c <> 101%N /\ c <> 69%N
  end.
Proof.
  destruct rest as [|c rest]; [trivial|]. unfold ends_number.
  rewrite negb_true_iff, !orb_false_iff, !N.eqb_neq. tauto.
Qed.

Lemma match_frac_none (rest : pystr) :
  ends_number rest = true -> match_frac rest = ([], rest).
Proof.
  intros H. apply ends_number_spec in H. destruct rest as [|c rest]; [reflexivity|].
  unfold match_frac. destruct H as (_ & H & _).
  now rewrite (proj2 (N.eqb_neq c 46) H).
Qed.

Lemma match_exp_none (rest : pystr) :
  ends_number rest = true -> match_exp rest = ([], rest).
Proof.
  intros H. apply ends_number_spec in H. destruct rest as [|c rest]; [reflexivity|].
  unfold match_exp. destruct H as (_ & _ & H1 & H2).
  now rewrite (proj2 (N.eqb_neq c 101) H1), (proj2 (N.eqb_neq c 69) H2).
Qed.

Lemma match_integer_N (n : N) (rest : pystr) :
  ends_number rest = true ->
  match_integer (str_of_N n ++ rest) = Some (str_of_N n, rest).
Proof.
  intros H. apply ends_number_spec in H.
  assert (Hrest : match rest with [] => True | c :: _ => is_digit c = false end)
    by (destruct rest; tauto).
  destruct n as [|p]; [reflexivity|].
  unfold str_of_N. cbn [N.to_uint].
  destruct (pos_to_uint_head p) as (c & ds & Hcodes & Hdig & Hnz).
  pose proof (uint_codes_digits (Pos.to_uint p)) as Hall.
  rewrite Hcodes in *. inversion Hall as [|? ? _ Hds]; subst.
  unfold match_integer. cbn [app].
  assert (H45 : (c =? 45)%N = false).
  { apply N.eqb_neq. intros ->. discriminate. }
  rewrite H45, (proj2 (N.eqb_neq c 48) Hnz), Hdig.
  now rewrite span_digits_app.
Qed.

Lemma match_integer_Z (z : Z) (rest : pystr) :
  ends_number rest = true ->
  match_integer (str_of_Z z ++ rest) = Some (str_of_Z z, rest).
Proof.
  intros H. destruct z as [|p|p]; try apply match_integer_N; try assumption.
  pose proof (match_integer_N (Npos p) rest H) as Hn.
  unfold str_of_Z. unfold str_of_N in *. cbn [N.to_uint] in *.
  destruct (pos_to_uint_head p) as (c & ds & Hcodes & Hdig & Hnz).
  rewrite Hcodes in *. unfold match_integer in *. cbn [app N.eqb Pos.eqb] in *.
  assert (H45 : (c =? 45)%N = false).
  { apply N.eqb_neq. intros ->. discriminate. }
  rewrite H45 in Hn.
  destruct (c =? 48)%N.
  - inversion Hn; subst. reflexivity.
  - destruct (is_digit c); [|discriminate].
    destruct (span_digits (ds ++ rest)) as [ds' r']. inversion Hn; subst. reflexivity.
Qed.

Lemma int_of_literal_str (z : Z) : int_of_literal (str_of_Z z) = z.
Proof.
  destruct z as [|p|p].
  - reflexivity.
  - unfold str_of_Z. pose proof (N_of_digits_str (Npos p)) as Hn.
    unfold str_of_N in *. cbn [N.to_uint] in *.
    destruct (pos_to_uint_head p) as (c & ds & Hcodes & Hdig & Hnz).
    rewrite Hcodes in *. unfold int_of_literal.
    assert (H45 : (c =? 45)%N = false).
    { apply N.eqb_neq. intros ->. discriminate. }
    now rewrite H45, Hn.
  - unfold str_of_Z, int_of_literal. cbn [N.eqb Pos.eqb].
    now rewrite N_of_digits_str.
Qed.

Lemma scan_number_int (z : Z) (rest : pystr) :
  ends_number rest = true ->
  scan_number (str_of_Z z ++ rest) = Some (JInt z, rest).
Proof.
  intros H. unfold scan_number.
  rewrite match_integer_Z, match_frac_none, match_exp_none by assumption.
  now rewrite int_of_literal_str.
Qed.

(** The first character of a printed integer: a digit or the minus sign. *)
Lemma str_of_Z_head (z : Z) :
  exists c tl, str_of_Z z = c :: tl /\ (is_digit c = true \/ c = 45%N).
Proof.
  destruct z as [|p|p].
  - exists 48%N, []. auto.
  - destruct (pos_to_uint_head p) as (c & ds & Hcodes & Hdig & _).
    exists c, ds. auto.
  - exists 45%N, (str_of_N (Npos p)). auto.
Qed.

Lemma scan_atom_int (z : Z) (rest : pystr) :
  ends_number rest = true ->
  scan_atom (str_of_Z z ++ rest) = Ok (JInt z) rest.
Proof.
  intros H. unfold scan_atom.
  destruct (str_of_Z_head z) as (c & tl & Hz & Hc).
  pose proof (scan_number_int z rest H) as Hnum.
  rewrite Hz in *. cbn [app] in *.
  assert (Hn : forall x tl', In x [110; 116; 102]%N ->
                             strip_prefix (x :: tl') (c :: tl ++ rest) = None).
  { intros x tl' Hx. cbn [strip_prefix].
    replace (N.eqb x c) with false; [reflexivity|].
    symmetry. apply N.eqb_neq. intros ->.
    destruct Hc as [Hc| ->]; simpl in Hx;
      repeat (destruct Hx as [Hx|Hx]; [subst; discriminate|]); contradiction. }
  change (u "null") with (110 :: u "ull")%N.
  change (u "true") with (116 :: u "rue")%N.
  change (u "false") with (102 :: u "alse")%N.
  rewrite !Hn by (simpl; auto).
  now rewrite Hnum.
Qed.
End NumberFacts.

Section ValueInduction.
Import Json.
Variable P : value -> Prop.
Hypothesis Hnull : P JNull.
Hypothesis Hbool : forall b, P (JBool b).
Hypothesis Hint : forall z, P (JInt z).
Hypothesis Hfloat : forall lit, P (JFloat lit).
Hypothesis Hstr : forall s, P (JStr s).
Hypothesis Hlist : forall items, Forall P items -> P (JList items).
Hypothesis Hdict : forall pairs, Forall (fun kv => P (snd kv)) pairs -> P (JDict pairs).

(** Induction on values, with the hypothesis for every item of a list and
    every value of a dict. *)
Lemma value_nested_ind : forall v, P v.
Proof.
  fix IH 1. intros [| b | z | lit | s | items | pairs].
  - apply Hnull.
  - apply Hbool.
  - apply Hint.
  - apply Hfloat.
  - apply Hstr.
  - apply Hlist. induction items as [|x items IHitems]; constructor; [apply IH|assumption].
  - apply Hdict. induction pairs as [|[k x] pairs IHpairs]; constructor;
      [apply IH|assumption].
Qed.
End ValueInduction.

Section RoundTrip.
Import Json.
Variable float_repr : pystr -> pystr.
Variable ensure_ascii : bool.

(** The first character of an encoded JSON value. *)
Lemma dumps_head (v : value) :
  is_json v = true ->
  exists c tl, dumps float_repr ensure_ascii v = c :: tl
               /\ (is_digit c = true \/ In c [45; 34; 91; 123; 110; 116; 102]%N).
Proof.
  destruct v as [| [|] | z | lit | s | items | pairs]; intros Hv;
    try discriminate;
    try (eexists; eexists; split; [reflexivity|right; simpl; tauto]).
  destruct (str_of_Z_head z) as (c & tl & Hz & Hc).
  exists c, tl. split; [exact Hz|].
  destruct Hc as [Hc| ->]; [now left|right; simpl; tauto].
Qed.

Lemma value_start_not_ws (c : N) :
  is_digit c = true \/ In c [45; 34; 91; 123; 110; 116; 102]%N ->
  is_ws c = false /\ c <> 93%N /\ c <> 65279%N.
Proof.
  intros [H|H].
  - unfold is_digit in H. apply andb_true_iff in H as [H1 H2].
    apply N.leb_le in H1, H2. unfold is_ws.
    rewrite !orb_false_iff, !N.eqb_neq. lia.
  - simpl in H. repeat (destruct H as [<-|H]; [repeat split; discriminate|]).
    contradiction.
Qed.

Lemma skip_ws_dumps (v : value) (rest : pystr) :
  is_json v = true -> skip_ws (dumps float_repr ensure_ascii v ++ rest) = dumps float_repr ensure_ascii v ++ rest.
Proof.
  intros Hv. destruct (dumps_head v Hv) as (c & tl & -> & Hc).
  apply value_start_not_ws in Hc as (Hws & _). simpl. now rewrite Hws.
Qed.

Lemma items_tail_cons (v : value) (items : list value) :
  items_tail float_repr ensure_ascii (v :: items)
  = 44%N :: 32%N :: dumps float_repr ensure_ascii v
    ++ items_tail float_repr ensure_ascii items.
Proof. unfold items_tail. cbn [flat_map]. now rewrite <- !app_assoc. Qed.

Lemma items_tail_length (items : list value) :
  1 <= length (items_tail float_repr ensure_ascii items).
Proof. unfold items_tail. rewrite length_app. simpl. lia. Qed.

Lemma array_items_dumps (items : list value) :
  Forall (fun v => is_json v = true /\ reads_back float_repr ensure_ascii v) items ->
  forall (v : value) (acc : list value) (rest : pystr) (fuel : nat),
    is_json v = true -> reads_back float_repr ensure_ascii v ->
    length (dumps float_repr ensure_ascii v ++ items_tail float_repr ensure_ascii items)
    < fuel ->
    array_items fuel
      (dumps float_repr ensure_ascii v ++ items_tail float_repr ensure_ascii items ++ rest)
      acc
    = Ok (JList (rev acc ++ v :: items)) rest.
Proof.
  induction 1 as [|v' items [Hv' Hrb'] _ IH]; intros v acc rest fuel Hv Hrb Hfuel;
    (destruct fuel as [|fuel]; [simpl in Hfuel; lia|]);
    rewrite length_app in Hfuel; cbn [array_items].
  - pose proof (items_tail_length []) as Hlen.
    change (items_tail float_repr ensure_ascii [] ++ rest) with (93%N :: rest).
    rewrite Hrb; [reflexivity|reflexivity|lia].
  - pose proof (items_tail_length items) as Hlen.
    rewrite items_tail_cons in *. cbn [length app] in *.
    rewrite length_app in Hfuel.
    rewrite Hrb; [|reflexivity|lia].
    cbn [skip_ws is_ws N.eqb Pos.eqb orb].
    rewrite <- app_assoc, skip_ws_dumps by assumption.
    rewrite (IH v' (v :: acc) rest fuel Hv' Hrb') by (rewrite length_app; lia).
    cbn [rev]. rewrite <- app_assoc. reflexivity.
Qed.
Lemma pairs_tail_cons (k : pystr) (x : value) (pairs : list (pystr * value)) :
  pairs_tail float_repr ensure_ascii ((k, x) :: pairs)
  = 44%N :: 32%N :: 34%N :: flat_map (escape_char ensure_ascii) k
    ++ 34%N :: 58%N :: 32%N :: dumps float_repr ensure_ascii x
    ++ pairs_tail float_repr ensure_ascii pairs.
Proof.
  unfold pairs_tail, encode_string. cbn [flat_map fst snd].
  rewrite <- !app_assoc. cbn [app u List.map list_ascii_of_string].
  rewrite <- !app_assoc. reflexivity.
Qed.

Lemma pairs_tail_length (pairs : list (pystr * value)) :
  1 <= length (pairs_tail float_repr ensure_ascii pairs).
Proof. unfold pairs_tail. rewrite length_app. simpl. lia. Qed.

Lemma object_pairs_dumps (pairs : list (pystr * value)) :
  Forall (fun kv => key_ok ensure_ascii (fst kv) /\ is_json (snd kv) = true /\ reads_back float_repr ensure_ascii (snd kv))
    pairs ->
  forall (k : pystr) (x : value) (acc : list (pystr * value)) (rest : pystr) (fuel : nat),
    key_ok ensure_ascii k -> is_json x = true -> reads_back float_repr ensure_ascii x ->
    length (flat_map (escape_char ensure_ascii) k
            ++ 34%N :: 58%N :: 32%N :: dumps float_repr ensure_ascii x
            ++ pairs_tail float_repr ensure_ascii pairs) < fuel ->
    object_pairs fuel
      (flat_map (escape_char ensure_ascii) k
       ++ 34%N :: 58%N :: 32%N :: dumps float_repr ensure_ascii x
       ++ pairs_tail float_repr ensure_ascii pairs ++ rest) acc
    = Ok (JDict (dict_of_pairs (rev acc ++ (k, x) :: pairs))) rest.
Proof.
  induction 1 as [|[k' x'] pairs (Hk' & Hx' & Hrb') _ IH];
    intros k x acc rest fuel Hk Hx Hrb Hfuel;
    (destruct fuel as [|fuel]; [simpl in Hfuel; lia|]);
    rewrite length_app in Hfuel; cbn [length] in Hfuel;
    rewrite length_app in Hfuel;
    cbn [object_pairs]; rewrite py_scanstring_encoded by assumption;
    cbn [skip_ws is_ws N.eqb Pos.eqb orb]; rewrite skip_ws_dumps by assumption.
  - change (pairs_tail float_repr ensure_ascii [] ++ rest) with (125%N :: rest).
    rewrite Hrb; [|reflexivity|lia].
    reflexivity.
  - pose proof (pairs_tail_length pairs) as Hlen.
    cbn [fst snd] in *.
    rewrite pairs_tail_cons in *. cbn [length app] in *.
    rewrite length_app in Hfuel. cbn [length] in Hfuel.
    rewrite length_app in Hfuel.
    rewrite Hrb; [|reflexivity|lia].
    cbn [skip_ws is_ws N.eqb Pos.eqb orb].
    rewrite <- !app_assoc. cbn [app]. rewrite <- !app_assoc.
    rewrite (IH k' x' ((k, x) :: acc) rest fuel Hk' Hx' Hrb')
      by (rewrite length_app; cbn [length]; rewrite length_app; lia).
    cbn [rev]. rewrite <- app_assoc. reflexivity.
Qed.

Lemma join_items (v : value) (items : list value) :
  join (u ", ") (List.map (dumps float_repr ensure_ascii) (v :: items)) ++ [93%N]
  = dumps float_repr ensure_ascii v ++ items_tail float_repr ensure_ascii items.
Proof.
  revert v. induction items as [|v' items IH]; intros v.
  - reflexivity.
  - rewrite items_tail_cons. cbn [List.map join] in *.
    rewrite <- !app_assoc. rewrite IH. reflexivity.
Qed.

Lemma join_pairs (k : pystr) (x : value) (pairs : list (pystr * value)) :
  join (u ", ")
    (List.map (fun kv => match kv with
                         | (k, x) => encode_string ensure_ascii k ++ u ": "
                                     ++ dumps float_repr ensure_ascii x
                         end) ((k, x) :: pairs))
  ++ [125%N]
  = 34%N :: flat_map (escape_char ensure_ascii) k
    ++ 34%N :: 58%N :: 32%N :: dumps float_repr ensure_ascii x
    ++ pairs_tail float_repr ensure_ascii pairs.
Proof.
  revert k x. induction pairs as [|[k' x'] pairs IH]; intros k x.
  - unfold encode_string, pairs_tail. cbn [List.map join flat_map app].
    rewrite <- !app_assoc. reflexivity.
  - rewrite pairs_tail_cons. specialize (IH k' x').
    cbn [List.map] in *.
    change (join (u ", ") (?p :: ?q :: ?l)) with (p ++ u ", " ++ join (u ", ") (q :: l)).
    rewrite <- !app_assoc. rewrite IH.
    unfold encode_string. cbn [app]. rewrite <- !app_assoc. reflexivity.
Qed.

Lemma distinctb_NoDup (ks : list pystr) : distinctb ks = true -> NoDup ks.
Proof.
  induction ks as [|k ks IH]; simpl; intros H; constructor;
    apply andb_true_iff in H as [Hk Hks]; auto.
  intros Hin. apply negb_true_iff in Hk.
  assert (Hex : existsb (pystr_eqb k) ks = true).
  { apply existsb_exists. exists k. split; [assumption|apply pystr_eqb_refl]. }
  congruence.
Qed.

(** The decoder reads back what the encoder wrote for a JSON value. *)
Lemma scan_once_dumps (v : value) : is_json v = true -> reads_back float_repr ensure_ascii v.
Proof.
  induction v as [| b | z | lit | s | items IH | pairs IH] using value_nested_ind;
    intros Hv rest fuel Hrest Hfuel;
    (destruct fuel as [|fuel]; [lia|]).
  - reflexivity.
  - destruct b; reflexivity.
  - cbn [dumps] in *.
    destruct (str_of_Z_head z) as (c & tl & Hz & Hc).
    pose proof (scan_atom_int z rest Hrest) as Hatom.
    rewrite Hz in *. cbn [app scan_once] in *.
    assert (H34 : (c =? 34)%N = false /\ (c =? 123)%N = false /\ (c =? 91)%N = false).
    { rewrite !N.eqb_neq.
      destruct Hc as [Hc| ->]; [|repeat split; discriminate].
      unfold is_digit in Hc. apply andb_true_iff in Hc as [H1 H2].
      apply N.leb_le in H1, H2. lia. }
    destruct H34 as (-> & -> & ->). exact Hatom.
  - discriminate.
  - cbn [dumps is_json] in *. unfold encode_string.
    cbn [app scan_once N.eqb Pos.eqb]. rewrite <- app_assoc. cbn [app].
    rewrite py_scanstring_encoded by (now right). reflexivity.
  - cbn [dumps is_json] in *. cbn [app scan_once N.eqb Pos.eqb].
    destruct items as [|v items]; [reflexivity|].
    rewrite join_items in *. rewrite <- app_assoc.
    cbn [forallb] in Hv. apply andb_true_iff in Hv as [Hv Hitems].
    inversion IH as [|? ? IHv IHitems]; subst.
    rewrite skip_ws_dumps by assumption.
    destruct (dumps_head v Hv) as (c & tl & Hd & Hc).
    apply value_start_not_ws in Hc as (_ & H93 & _).
    rewrite Hd at 1. cbn [app]. rewrite (proj2 (N.eqb_neq c 93) H93).
    change (c :: tl ++ ?x) with ((c :: tl) ++ x). rewrite <- Hd.
    apply (array_items_dumps (items := items)); auto.
    + rewrite forallb_forall in Hitems. rewrite Forall_forall in *.
      intros x Hx. split; auto.
    + cbn [length] in Hfuel. lia.
  - cbn [dumps is_json] in *. cbn [app scan_once N.eqb Pos.eqb].
    destruct pairs as [|[k x] pairs]; [reflexivity|].
    rewrite join_pairs in *. cbn [app skip_ws is_ws N.eqb Pos.eqb orb].
    rewrite <- !app_assoc. cbn [app]. rewrite <- !app_assoc.
    apply andb_true_iff in Hv as [Hnd Hv].
    cbn [forallb fst snd] in Hv.
    apply andb_true_iff in Hv as [Hkx Hpairs].
    apply andb_true_iff in Hkx as [Hk Hx].
    inversion IH as [|? ? IHx IHpairs]; subst. cbn [snd] in IHx.
    rewrite (object_pairs_dumps (pairs := pairs)); auto.
    + cbn [rev app]. rewrite dict_of_pairs_nodup; [reflexivity|].
      now apply distinctb_NoDup.
    + rewrite forallb_forall in Hpairs. rewrite Forall_forall in *.
      intros kv Hkv. specialize (Hpairs kv Hkv).
      apply andb_true_iff in Hpairs as [H1 H2].
      repeat split; [now right|assumption|auto].
    + now right.
    + cbn [length] in Hfuel. lia.
Qed.

(** [json.loads(json.dumps(v)) == v] for every JSON value [v]. *)
Lemma loads_dumps (v : value) :
  is_json v = true -> loads (dumps float_repr ensure_ascii v) = Some v.
Proof.
  intros Hv. unfold loads.
  destruct (dumps_head v Hv) as (c & tl & Hd & Hc).
  apply value_start_not_ws in Hc as (Hws & _ & Hbom).
  assert (Hstrip : strip_prefix [65279%N] (dumps float_repr ensure_ascii v) = None).
  { rewrite Hd. cbn [strip_prefix].
    rewrite N.eqb_sym, (proj2 (N.eqb_neq c 65279) Hbom). reflexivity. }
  rewrite Hstrip.
  pose proof (skip_ws_dumps v [] Hv) as Hskip. rewrite app_nil_r in Hskip.
  rewrite Hskip.
  pose proof (@scan_once_dumps v Hv [] (2 * length (dumps float_repr ensure_ascii v) + 2)
                eq_refl ltac:(lia)) as Hscan.
  rewrite app_nil_r in Hscan. rewrite Hscan. reflexivity.
Qed.
End RoundTrip.

Section FuelFacts.
Import Json.

Lemma skip_ws_length (s : pystr) : length (skip_ws s) <= length s.
Proof.
  induction s as [|c s IH]; simpl; [lia|]. destruct (is_ws c); simpl; lia.
Qed.

Lemma strip_prefix_length (p s r : pystr) :
  strip_prefix p s = Some r -> length s = length p + length r.
Proof.
  revert s. induction p as [|x p IH]; intros [|y s]; simpl; intros H;
    try discriminate; try (inversion H; subst; reflexivity).
  destruct (N.eqb x y); [|discriminate]. rewrite (IH _ H). reflexivity.
Qed.

Lemma decode_uXXXX_length (s r : pystr) (n : N) :
  decode_uXXXX s = Some (n, r) -> length s = 4 + length r.
Proof.
  unfold decode_uXXXX. destruct s as [|a [|b [|c [|d s]]]]; try discriminate.
  destruct (hexval a), (hexval b), (hexval c), (hexval d); try discriminate.
  intros H. inversion H; subst. reflexivity.
Qed.

Lemma cons_ok_inv (c : N) (p : parsed pystr) (a r : pystr) :
  cons_ok c p = Ok a r -> exists a', p = Ok a' r.
Proof. destruct p; simpl; intros H; inversion H; subst; eauto. Qed.

Lemma cons_ok_fuel (c : N) (p : parsed pystr) :
  cons_ok c p = OutOfFuel -> p = OutOfFuel.
Proof. destruct p; simpl; intros H; congruence. Qed.

(** The two steps that recur in the lemmas on [scanstring]: a result pushed
    through [cons_ok] is shorter by the induction hypothesis, and a budget
    pushed through [cons_ok] is not used up by the induction hypothesis. *)
Ltac shorter_by IH H :=
  let a := fresh "a" in
  apply cons_ok_inv in H as [a H]; apply IH in H; simpl in *; lia.

Ltac budget_by IH :=
  let H := fresh "H" in
  intros H; apply cons_ok_fuel in H; revert H; apply IH; simpl in *; lia.

(** [py_scanstring] consumes input when it succeeds. *)
Lemma scanstring_length (fuel : nat) :
  forall (s a r : pystr), scanstring fuel s = Ok a r -> length r < length s.
Proof.
  induction fuel as [|fuel IH]; intros s a r H; [discriminate|].
  cbn [scanstring] in H. destruct s as [|c s]; [discriminate|].
  destruct (c =? 34)%N; [inversion H; subst; simpl; lia|].
  destruct (c =? 92)%N.
  - destruct s as [|esc s1]; [discriminate|].
    destruct (esc =? 117)%N.
    + destruct (decode_uXXXX s1) as [[uni r2]|] eqn:E1; [|discriminate].
      apply decode_uXXXX_length in E1.
      destruct (is_high_surrogate uni).
      * destruct (strip_prefix [92%N; 117%N] r2) as [r3|] eqn:E2.
        -- apply strip_prefix_length in E2.
           destruct (decode_uXXXX r3) as [[uni2 r4]|] eqn:E3; [|discriminate].
           apply decode_uXXXX_length in E3.
           destruct (is_low_surrogate uni2);
             shorter_by IH H.
        -- shorter_by IH H.
      * shorter_by IH H.
    + destruct (backslash esc); [|discriminate].
      shorter_by IH H.
  - destruct (c <? 32)%N; [discriminate|].
    shorter_by IH H.
Qed.

(** A budget above the length of the input is never used up. *)
Lemma scanstring_fuel (fuel : nat) :
  forall s : pystr, length s < fuel -> scanstring fuel s <> OutOfFuel.
Proof.
  induction fuel as [|fuel IH]; intros s Hlen; [lia|].
  cbn [scanstring]. destruct s as [|c s]; [discriminate|].
  destruct (c =? 34)%N; [discriminate|].
  destruct (c =? 92)%N.
  - destruct s as [|esc s1]; [discriminate|].
    destruct (esc =? 117)%N.
    + destruct (decode_uXXXX s1) as [[uni r2]|] eqn:E1; [|discriminate].
      apply decode_uXXXX_length in E1.
      destruct (is_high_surrogate uni).
      * destruct (strip_prefix [92%N; 117%N] r2) as [r3|] eqn:E2.
        -- apply strip_prefix_length in E2.
           destruct (decode_uXXXX r3) as [[uni2 r4]|] eqn:E3; [|discriminate].
           apply decode_uXXXX_length in E3.
           destruct (is_low_surrogate uni2);
             budget_by IH.
        -- budget_by IH.
      * budget_by IH.
    + destruct (backslash esc); [|discriminate].
      budget_by IH.
  - destruct (c <? 32)%N; [discriminate|].
    budget_by IH.
Qed.

Lemma py_scanstring_length (s a r : pystr) :
  py_scanstring s = Ok a r -> length r < length s.
Proof. apply scanstring_length. Qed.

Lemma py_scanstring_fuel (s : pystr) : py_scanstring s <> OutOfFuel.
Proof. apply scanstring_fuel. lia. Qed.

Lemma span_digits_length (s : pystr) :
  length (snd (span_digits s)) <= length s.
Proof.
  induction s as [|c s IH]; simpl; [lia|].
  destruct (is_digit c); [|simpl; lia].
  destruct (span_digits s) as [d r]. simpl in *. lia.
Qed.

Lemma match_integer_length (s i r : pystr) :
  match_integer s = Some (i, r) -> length r < length s.
Proof.
  unfold match_integer.
  destruct s as [|c s]; [discriminate|].
  destruct (c =? 45)%N.
  - destruct s as [|c' s]; [discriminate|].
    destruct (c' =? 48)%N; [intros H; inversion H; subst; simpl; lia|].
    destruct (is_digit c'); [|discriminate].
    pose proof (span_digits_length s) as Hs.
    destruct (span_digits s) as [ds r']. intros H. inversion H; subst.
    simpl in *. lia.
  - destruct (c =? 48)%N; [intros H; inversion H; subst; simpl; lia|].
    destruct (is_digit c); [|discriminate].
    pose proof (span_digits_length s) as Hs.
    destruct (span_digits s) as [ds r']. intros H. inversion H; subst.
    simpl in *. lia.
Qed.

Lemma match_frac_length (s : pystr) : length (snd (match_frac s)) <= length s.
Proof.
  unfold match_frac. destruct s as [|c s]; [simpl; lia|].
  destruct (c =? 46)%N; [|simpl; lia].
  pose proof (span_digits_length s) as Hs.
  destruct (span_digits s) as [[|d ds] r]; simpl in *; lia.
Qed.

Lemma match_exp_length (s : pystr) : length (snd (match_exp s)) <= length s.
Proof.
  unfold match_exp. destruct s as [|c s]; [simpl; lia|].
  destruct ((c =? 101)%N || (c =? 69)%N); [|simpl; lia].
  destruct s as [|c' s'].
  - simpl. lia.
  - destruct ((c' =? 45)%N || (c' =? 43)%N).
    + pose proof (span_digits_length s') as Hs.
      destruct (span_digits s') as [[|d ds] r]; simpl in *; lia.
    + pose proof (span_digits_length (c' :: s')) as Hs.
      destruct (span_digits (c' :: s')) as [[|d ds] r]; simpl in *; lia.
Qed.

Lemma scan_number_length (s r : pystr) (v : value) :
  scan_number s = Some (v, r) -> length r < length s.
Proof.
  unfold scan_number.
  destruct (match_integer s) as [[i r0]|] eqn:Ei; [|discriminate].
  apply match_integer_length in Ei.
  pose proof (match_frac_length r0) as Hf.
  destruct (match_frac r0) as [frac r1].
  pose proof (match_exp_length r1) as He.
  destruct (match_exp r1) as [exp r2]. simpl in *.
  destruct frac, exp; intros H; inversion H; subst; lia.
Qed.

Lemma scan_atom_length (s r : pystr) (v : value) :
  scan_atom s = Ok v r -> length r < length s.
Proof.
  unfold scan_atom.
  repeat match goal with
         | |- context [strip_prefix ?p s] =>
             let E := fresh "E" in
             destruct (strip_prefix p s) eqn:E;
             [apply strip_prefix_length in E; intros H; inversion H; subst;
              simpl in E; lia|]
         | |- context [scan_number s] =>
             let E := fresh "E" in
             destruct (scan_number s) as [[? ?]|] eqn:E;
             [apply scan_number_length in E; intros H; inversion H; subst; lia|]
         end.
  discriminate.
Qed.

Lemma scan_atom_fuel (s : pystr) : scan_atom s <> OutOfFuel.
Proof.
  unfold scan_atom.
  repeat match goal with
         | |- context [strip_prefix ?p s] => destruct (strip_prefix p s); [discriminate|]
         | |- context [scan_number s] => destruct (scan_number s) as [[? ?]|]; [discriminate|]
         end.
  discriminate.
Qed.

Lemma map_ok_inv (A B : Type) (f : A -> B) (p : parsed A) (b : B) (r : pystr) :
  map_ok f p = Ok b r -> exists a, p = Ok a r.
Proof. destruct p; simpl; intros H; inversion H; subst; eauto. Qed.

(** Every scanning function consumes input when it succeeds. *)
Lemma scan_length (fuel : nat) :
  (forall s v r, scan_once fuel s = Ok v r -> length r < length s)
  /\ (forall s acc v r, object_pairs fuel s acc = Ok v r -> length r < length s)
  /\ (forall s acc v r, array_items fuel s acc = Ok v r -> length r < length s).
Proof.
  induction fuel as [|fuel (IHs & IHo & IHa)];
    [repeat split; intros; discriminate|].
  split; [|split].
  - intros s v r H. cbn [scan_once] in H. destruct s as [|c s]; [discriminate|].
    destruct (c =? 34)%N.
    { apply map_ok_inv in H as [a H]. apply py_scanstring_length in H. simpl. lia. }
    destruct (c =? 123)%N.
    { pose proof (skip_ws_length s) as Hws.
      destruct (skip_ws s) as [|c1 r1]; [discriminate|].
      destruct (c1 =? 125)%N; [inversion H; subst; simpl in *; lia|].
      destruct (c1 =? 34)%N; [|discriminate].
      apply IHo in H. simpl in *. lia. }
    destruct (c =? 91)%N.
    { pose proof (skip_ws_length s) as Hws.
      destruct (skip_ws s) as [|c1 r1]; [discriminate|].
      destruct (c1 =? 93)%N; [inversion H; subst; simpl in *; lia|].
      apply IHa in H. simpl in *. lia. }
    now apply scan_atom_length in H.
  - intros s acc v r H. cbn [object_pairs] in H.
    destruct (py_scanstring s) as [key r0| |] eqn:Ek; try discriminate.
    apply py_scanstring_length in Ek.
    pose proof (skip_ws_length r0) as Hws0.
    destruct (skip_ws r0) as [|c r1]; [discriminate|].
    destruct (c =? 58)%N; [|discriminate].
    pose proof (skip_ws_length r1) as Hws1.
    destruct (scan_once fuel (skip_ws r1)) as [x r2| |] eqn:Ex; try discriminate.
    apply IHs in Ex.
    pose proof (skip_ws_length r2) as Hws2.
    destruct (skip_ws r2) as [|c' r3]; [discriminate|].
    destruct (c' =? 125)%N; [inversion H; subst; simpl in *; lia|].
    destruct (c' =? 44)%N; [|discriminate].
    pose proof (skip_ws_length r3) as Hws3.
    destruct (skip_ws r3) as [|c'' r4]; [discriminate|].
    destruct (c'' =? 34)%N; [|discriminate].
    apply IHo in H. simpl in *. lia.
  - intros s acc v r H. cbn [array_items] in H.
    destruct (scan_once fuel s) as [x r0| |] eqn:Ex; try discriminate.
    apply IHs in Ex.
    pose proof (skip_ws_length r0) as Hws0.
    destruct (skip_ws r0) as [|c r1]; [discriminate|].
    destruct (c =? 93)%N; [inversion H; subst; simpl in *; lia|].
    destruct (c =? 44)%N; [|discriminate].
    pose proof (skip_ws_length r1) as Hws1.
    apply IHa in H. simpl in *. lia.
Qed.

(** A budget above twice the length of the input is never used up. *)
Lemma scan_fuel (fuel : nat) :
  (forall s, 2 * length s < fuel -> scan_once fuel s <> OutOfFuel)
  /\ (forall s acc, 2 * length s + 1 < fuel -> object_pairs fuel s acc <> OutOfFuel)
  /\ (forall s acc, 2 * length s + 1 < fuel -> array_items fuel s acc <> OutOfFuel).
Proof.
  induction fuel as [|fuel (IHs & IHo & IHa)];
    [repeat split; intros; lia|].
  destruct (scan_length fuel) as (Ls & Lo & La).
  split; [|split].
  - intros s Hlen. cbn [scan_once]. destruct s as [|c s]; [discriminate|].
    destruct (c =? 34)%N.
    { pose proof (py_scanstring_fuel s) as Hf.
      destruct (py_scanstring s); simpl; congruence. }
    destruct (c =? 123)%N.
    { pose proof (skip_ws_length s) as Hws.
      destruct (skip_ws s) as [|c1 r1]; [discriminate|].
      destruct (c1 =? 125)%N; [discriminate|].
      destruct (c1 =? 34)%N; [|discriminate].
      apply IHo. simpl in *. lia. }
    destruct (c =? 91)%N.
    { pose proof (skip_ws_length s) as Hws.
      destruct (skip_ws s) as [|c1 r1]; [discriminate|].
      destruct (c1 =? 93)%N; [discriminate|].
      apply IHa. simpl in *. lia. }
    apply scan_atom_fuel.
  - intros s acc Hlen. cbn [object_pairs].
    pose proof (py_scanstring_fuel s) as Hf.
    destruct (py_scanstring s) as [key r0| |] eqn:Ek; try congruence.
    apply py_scanstring_length in Ek.
    pose proof (skip_ws_length r0) as Hws0.
    destruct (skip_ws r0) as [|c r1]; [discriminate|].
    destruct (c =? 58)%N; [|discriminate].
    pose proof (skip_ws_length r1) as Hws1.
    pose proof (IHs (skip_ws r1) ltac:(simpl in *; lia)) as Hx.
    destruct (scan_once fuel (skip_ws r1)) as [x r2| |] eqn:Ex; try congruence.
    apply Ls in Ex.
    pose proof (skip_ws_length r2) as Hws2.
    destruct (skip_ws r2) as [|c' r3]; [discriminate|].
    destruct (c' =? 125)%N; [discriminate|].
    destruct (c' =? 44)%N; [|discriminate].
    pose proof (skip_ws_length r3) as Hws3.
    destruct (skip_ws r3) as [|c'' r4]; [discriminate|].
    destruct (c'' =? 34)%N; [|discriminate].
    apply IHo. simpl in *. lia.
  - intros s acc Hlen. cbn [array_items].
    pose proof (IHs s ltac:(lia)) as Hx.
    destruct (scan_once fuel s) as [x r0| |] eqn:Ex; try congruence.
    apply Ls in Ex.
    pose proof (skip_ws_length r0) as Hws0.
    destruct (skip_ws r0) as [|c r1]; [discriminate|].
    destruct (c =? 93)%N; [discriminate|].
    destruct (c =? 44)%N; [|discriminate].
    pose proof (skip_ws_length r1) as Hws1.
    apply IHa. simpl in *. lia.
Qed.

(** The budget [loads] gives to [scan_once] is never used up: [loads]
    returns [None] only for a [JSONDecodeError]. *)
Lemma loads_fuel_suffices (s : pystr) :
  scan_once (2 * length (skip_ws s) + 2) (skip_ws s) <> OutOfFuel.
Proof. apply scan_fuel. lia. Qed.
End FuelFacts.

(* ===================================================================== *)
(** * Facts about the generator                                           *)
(* ===================================================================== *)

Section SamplingFacts.
Import Generator.

Lemma randbelow_lt (n : nat) (g : rng) : 0 < n -> fst (randbelow n g) < n.
Proof.
  intros H. unfold randbelow. simpl. apply Nat.mod_upper_bound. lia.
Qed.

Lemma nth_error_list_set (A : Type) (l : list A) (j i : nat) (x : A) :
  nth_error (list_set j x l) i
  = if Nat.eqb i j then (if Nat.ltb j (length l) then Some x else None)
    else nth_error l i.
Proof.
  revert j i. induction l as [|y l IH]; intros j i; simpl.
  - destruct j, i; simpl; try reflexivity.
    + destruct (Nat.eqb i j); reflexivity.
  - destruct j as [|j].
    + destruct i; reflexivity.
    + destruct i as [|i]; simpl; [reflexivity|].
      rewrite IH. destruct (Nat.eqb i j); [|reflexivity].
      change (S j <? S (length l)) with (j <? length l). reflexivity.
Qed.

(** [random.sample(population, 2)] returns the items at two distinct
    positions. *)
Lemma sample2_spec (A : Type) (population : list A) (g g' : rng) (a b : A) :
  sample2 population g = Some ((a, b), g') ->
  exists i j, i <> j /\ nth_error population i = Some a
              /\ nth_error population j = Some b.
Proof.
  unfold sample2.
  destruct (Nat.ltb_spec (length population) 2) as [Hlt|Hn]; [discriminate|].
  pose proof (@randbelow_lt (length population) g ltac:(lia)) as H1.
  destruct (randbelow (length population) g) as [j1 g1]. cbn [fst] in H1.
  destruct (nth_error population j1) as [r0|] eqn:E0; [|discriminate].
  destruct (nth_error population (length population - 1)) as [last|] eqn:El;
    [|discriminate].
  pose proof (@randbelow_lt (length population - 1) g1 ltac:(lia)) as H2.
  destruct (randbelow (length population - 1) g1) as [j2 g2]. cbn [fst] in H2.
  rewrite nth_error_list_set.
  destruct (Nat.eqb_spec j2 j1) as [->|Hne].
  - destruct (Nat.ltb_spec j1 (length population)); [|discriminate].
    intros Heq. inversion Heq; subst.
    exists j1, (length population - 1). repeat split; auto. lia.
  - destruct (nth_error population j2) as [r1|] eqn:E1; [|discriminate].
    intros Heq. inversion Heq; subst.
    exists j1, j2. repeat split; auto.
Qed.

Lemma sample2_total (A : Type) (population : list A) (g : rng) :
  2 <= length population ->
  exists a b g', sample2 population g = Some ((a, b), g').
Proof.
  intros Hn. unfold sample2.
  destruct (Nat.ltb_spec (length population) 2) as [|_]; [lia|].
  pose proof (@randbelow_lt (length population) g ltac:(lia)) as H1.
  destruct (randbelow (length population) g) as [j1 g1]. cbn [fst] in H1.
  destruct (nth_error population j1) as [r0|] eqn:E0;
    [|apply nth_error_None in E0; lia].
  destruct (nth_error population (length population - 1)) as [last|] eqn:El;
    [|apply nth_error_None in El; lia].
  pose proof (@randbelow_lt (length population - 1) g1 ltac:(lia)) as H2.
  destruct (randbelow (length population - 1) g1) as [j2 g2]. cbn [fst] in H2.
  rewrite nth_error_list_set.
  destruct (Nat.eqb_spec j2 j1) as [->|Hne].
  - destruct (Nat.ltb_spec j1 (length population)); [|lia]. eauto.
  - destruct (nth_error population j2) as [r1|] eqn:E1;
      [|apply nth_error_None in E1; lia]. eauto.
Qed.

(** What the loop of [generate_interactions] guarantees for every row. *)
Lemma interactions_loop_rows (user_ids : list pystr) (ages : list (pystr * Z))
    (ts : pystr) (k : nat) :
  forall (i : nat) (g g' : rng) (rows : list Interaction),
    interactions_loop user_ids ages ts i k g = Some (rows, g') ->
    forall r, In r rows ->
      exists p q a_from a_to,
        p <> q
        /\ nth_error user_ids p = Some (from_user r)
        /\ nth_error user_ids q = Some (to_user r)
        /\ dict_get (from_user r) ages = Some a_from
        /\ dict_get (to_user r) ages = Some a_to
        /\ (a_to <= a_from)%Z.
Proof.
  induction k as [|k IH]; intros i g g' rows H r Hin;
    cbn -[sample2 sample_dm_text randint dict_get] in H.
  - inversion H; subst. contradiction.
  - destruct (sample2 user_ids g) as [[[u1 u2] g1]|] eqn:Es; [|discriminate].
    apply sample2_spec in Es as (p & q & Hpq & Hp & Hq).
    destruct (dict_get u1 ages) as [a1|] eqn:E1; [|discriminate].
    destruct (dict_get u2 ages) as [a2|] eqn:E2; [|discriminate].
    destruct (Z.gtb_spec a1 a2) as [Hgt|Hle];
      match type of H with
      | context [sample_dm_text ?o ?y ?g] => destruct (sample_dm_text o y g) as [text g2]
      end;
      destruct (randint 0 60 g2) as [d g3];
      destruct (interactions_loop user_ids ages ts (S i) k g3) as [[rows' g4]|] eqn:El;
      try discriminate;
      inversion H; subst; clear H;
      (destruct Hin as [<-|Hin]; [|now apply (IH _ _ _ _ El)]); simpl.
    + exists p, q, a1, a2. repeat split; auto. lia.
    + exists q, p, a2, a1. repeat split; auto.
Qed.

Lemma interactions_loop_total (user_ids : list pystr) (ages : list (pystr * Z))
    (ts : pystr) (k : nat) :
  2 <= length user_ids ->
  (forall uid, In uid user_ids -> exists a, dict_get uid ages = Some a) ->
  forall (i : nat) (g : rng),
    exists rows g', interactions_loop user_ids ages ts i k g = Some (rows, g').
Proof.
  intros Hn Hages. induction k as [|k IH]; intros i g;
    cbn -[sample2 sample_dm_text randint dict_get]; [eauto|].
  destruct (sample2_total user_ids g Hn) as (u1 & u2 & g1 & Es).
  rewrite Es.
  destruct (sample2_spec _ _ Es) as (p & q & _ & Hp & Hq).
  destruct (Hages u1 (nth_error_In _ _ Hp)) as [a1 ->].
  destruct (Hages u2 (nth_error_In _ _ Hq)) as [a2 ->].
  destruct (if (a1 >? a2)%Z then (u1, u2) else (u2, u1)) as [older younger].
  destruct (sample_dm_text older younger g1) as [text g2].
  destruct (randint 0 60 g2) as [d g3].
  destruct (IH (S i) g3) as (rows & g4 & ->). eauto.
Qed.

Lemma ages_of_get (users_df : list User) (uid : pystr) :
  In uid (List.map user_id users_df) ->
  exists row, In row users_df /\ user_id row = uid
              /\ dict_get uid (ages_of users_df) = Some (age row).
Proof.
  intros Hin. unfold ages_of, dict_of_pairs.
  destruct (@fold_dict_set_get Z
              (List.map (fun r => (user_id r, age r)) users_df) [] uid)
    as (v & Hv & Hsrc).
  - left. rewrite map_map. exact Hin.
  - destruct Hsrc as [Hsrc|[]].
    apply in_map_iff in Hsrc as (row & Heq & Hrow).
    inversion Heq; subst. eauto.
Qed.

Lemma ages_of_unique (users_df : list User) (row : User) :
  NoDup (List.map user_id users_df) -> In row users_df ->
  dict_get (user_id row) (ages_of users_df) = Some (age row).
Proof.
  intros Hnd Hin. unfold ages_of.
  rewrite dict_of_pairs_nodup by (now rewrite map_map).
  induction users_df as [|r rest IH]; [contradiction|]. simpl in *.
  inversion Hnd as [|? ? Hnotin Hnd']; subst.
  destruct Hin as [->|Hin].
  - now rewrite pystr_eqb_refl.
  - rewrite pystr_eqb_neq; [now apply IH|].
    intros Heq. apply Hnotin. rewrite Heq. now apply in_map.
Qed.
End SamplingFacts.

Section PoolFacts.
Import Generator.

Lemma choice_in (A : Type) (x : A) (xs : list A) (g : rng) :
  In (fst (choice x xs g)) (x :: xs).
Proof.
  unfold choice.
  pose proof (@randbelow_lt (length (x :: xs)) g) as Hlt.
  destruct (randbelow (length (x :: xs)) g) as [i g'] eqn:E. cbn [fst] in *.
  apply nth_In. apply Hlt. simpl. lia.
Qed.

Lemma choice_of_in (pool : list pystr) (g : rng) :
  pool <> [] -> In (fst (choice_of pool g)) pool.
Proof.
  destruct pool as [|x xs]; [congruence|]. intros _. apply choice_in.
Qed.

(** Which pool a text comes from, by age group. *)
Lemma sample_post_text_pools (user_age : Z) (g : rng) :
  let text := fst (sample_post_text user_age g) in
  if (user_age <? 18)%Z
  then In text (risky_self_harm ++ risky_bully ++ risky_grooming ++ safe)
  else In text (risky_substance ++ risky_grooming ++ risky_bully ++ safe).
Proof.
  unfold sample_post_text.
  destruct (random g) as [bucket g1].
  destruct (user_age <? 18)%Z;
    repeat match goal with
           | |- context [if ?b then _ else _] => destruct b
           end;
    cbv zeta; rewrite !in_app_iff;
    match goal with
    | |- context [choice_of ?p ?g] =>
        pose proof (@choice_of_in p g ltac:(discriminate))
    end; tauto.
Qed.

Lemma pools_minor_no_substance (t : pystr) :
  In t (risky_self_harm ++ risky_bully ++ risky_grooming ++ safe) ->
  ~ In t risky_substance.
Proof.
  intros H Hs.
  vm_compute in H.
  repeat (destruct H as [H|H]; [subst t; vm_compute in Hs; intuition discriminate|]).
  exact H.
Qed.

Lemma pools_adult_no_self_harm (t : pystr) :
  In t (risky_substance ++ risky_grooming ++ risky_bully ++ safe) ->
  ~ In t risky_self_harm.
Proof.
  intros H Hs.
  vm_compute in H.
  repeat (destruct H as [H|H]; [subst t; vm_compute in Hs; intuition discriminate|]).
  exact H.
Qed.
End PoolFacts.

(** C10.  [sample_post_text] always returns one of the fixed texts; for an
    age below 18 the text is none of the substance-abuse pool, and for an
    age of 18 or more it is none of the self-harm pool. *)
Theorem sample_post_text_partitions_pools :
  forall (user_age : Z) (g : Generator.rng),
    let text := fst (Generator.sample_post_text user_age g) in
    In text (Generator.risky_self_harm ++ Generator.risky_bully
             ++ Generator.risky_grooming ++ Generator.risky_substance
             ++ Generator.safe)
    /\ ((user_age < 18)%Z -> ~ In text Generator.risky_substance)
    /\ ((18 <= user_age)%Z -> ~ In text Generator.risky_self_harm).
Proof.
  intros user_age g text.
  pose proof (sample_post_text_pools user_age g) as H. cbv zeta in H. fold text in H.
  destruct (Z.ltb_spec user_age 18) as [Hlt|Hge].
  - split; [|split].
    + rewrite !in_app_iff in *. tauto.
    + intros _. now apply pools_minor_no_substance.
    + intros Hc. lia.
  - split; [|split].
    + rewrite !in_app_iff in *. tauto.
    + intros Hc. lia.
    + intros _. now apply pools_adult_no_self_harm.
Qed.

Section TableFacts.
Import Generator.

Lemma repeat_draw_length (A : Type) (f : rng -> A * rng) (n : nat) (g : rng) :
  length (fst (repeat_draw n f g)) = n.
Proof.
  revert g. induction n as [|n IH]; intros g; simpl; [reflexivity|].
  destruct (f g) as [x g1]. specialize (IH g1).
  destruct (repeat_draw n f g1) as [xs g2]. simpl in *. now f_equal.
Qed.

Lemma zip4_user_ids (a : list pystr) :
  forall (b : list Z) (c : list pystr) (d : list timestamp),
    length b = length a -> length c = length a -> length d = length a ->
    List.map user_id (zip4 a b c d) = a.
Proof.
  induction a as [|x a IH]; intros [|y b] [|z c] [|w d]; simpl;
    try discriminate; try reflexivity.
  intros Hb Hc Hd. f_equal. apply IH; lia.
Qed.

Lemma generate_users_ids (n : nat) (start_date : pystr) (g : rng) :
  List.map user_id (fst (generate_users n start_date g))
  = List.map (fun i => u "u" ++ str_of_N (N.of_nat (i + 1))) (seq 0 n).
Proof.
  unfold generate_users.
  pose proof (repeat_draw_length (choice 13%Z [14; 15; 16; 17; 18; 21; 25; 30]%Z) n g)
    as Hages.
  destruct (repeat_draw n (choice 13%Z _) g) as [ages g1]. cbn [fst] in Hages.
  pose proof (repeat_draw_length (choice (u "standard") [u "creator"; u "business"]) n g1)
    as Htypes.
  destruct (repeat_draw n (choice (u "standard") _) g1) as [types g2].
  cbn [fst] in *.
  apply zip4_user_ids; rewrite ?length_map, ?length_seq; auto.
Qed.

Lemma generate_users_nodup (n : nat) (start_date : pystr) (g : rng) :
  NoDup (List.map user_id (fst (generate_users n start_date g))).
Proof.
  rewrite generate_users_ids.
  apply Injective_map_NoDup; [|apply seq_NoDup].
  intros i j H. apply app_inv_head in H. apply str_of_N_inj in H. lia.
Qed.

Lemma generate_users_length (n : nat) (start_date : pystr) (g : rng) :
  length (fst (generate_users n start_date g)) = n.
Proof.
  rewrite <- (length_map user_id), generate_users_ids.
  now rewrite length_map, length_seq.
Qed.

Lemma posts_of_user_owner (row : User) (ts : pystr) (k : nat) :
  forall (pid : N) (g : rng) (r : Post),
    In r (fst (fst (posts_of_user row k ts pid g))) -> post_user_id r = user_id row.
Proof.
  induction k as [|k IH]; intros pid g r;
    cbn -[sample_post_text randint]; [contradiction|].
  destruct (sample_post_text (age row) g) as [text g1].
  destruct (randint 0 60 g1) as [d g2].
  specialize (IH (pid + 1)%N g2 r).
  destruct (posts_of_user row k ts (pid + 1) g2) as [[rows pid'] g3].
  cbn [fst] in *. intros [<-|Hin]; [reflexivity|auto].
Qed.

Lemma posts_loop_owner (ppu : nat) (ts : pystr) (users_df : list User) :
  forall (pid : N) (g : rng) (r : Post),
    In r (fst (posts_loop users_df ppu ts pid g)) ->
    In (post_user_id r) (List.map user_id users_df).
Proof.
  induction users_df as [|row rest IH]; intros pid g r; simpl; [contradiction|].
  pose proof (@posts_of_user_owner row ts ppu pid g r) as Hrow.
  destruct (posts_of_user row ppu ts pid g) as [[rows pid'] g1].
  specialize (IH pid' g1 r).
  destruct (posts_loop rest ppu ts pid' g1) as [rows' g2].
  cbn [fst] in *. rewrite in_app_iff. intros [H|H]; [left|right]; auto.
  symmetry. auto.
Qed.
(** With at least two users [generate_interactions] raises nothing. *)
Lemma generate_interactions_total (users_df : list User) (k : nat) (ts : pystr)
    (g : rng) :
  2 <= length users_df ->
  exists rows g', generate_interactions users_df k ts g = Some (rows, g').
Proof.
  intros Hn. apply interactions_loop_total.
  - now rewrite length_map.
  - intros uid Hin. destruct (ages_of_get users_df uid Hin) as (row & _ & _ & Hget).
    eauto.
Qed.
End TableFacts.

(** C7.  For the users table [generate_users] produces, every post row
    belongs to a user of the table, and every interaction row goes from one
    user of the table to a different user of the table.  With at least two
    users (or no interaction asked for) [generate_interactions] does
    produce its rows. *)
Theorem generated_tables_referential_integrity :
  forall (n : nat) (start_date : pystr) (g : Generator.rng),
    let users := fst (Generator.generate_users n start_date g) in
    let ids := List.map Generator.user_id users in
    (forall posts_per_user ts g1 r,
        In r (fst (Generator.generate_posts users posts_per_user ts g1)) ->
        In (Generator.post_user_id r) ids)
    /\ (forall k ts g2 rows g3,
           Generator.generate_interactions users k ts g2 = Some (rows, g3) ->
           forall r, In r rows ->
             In (Generator.from_user r) ids /\ In (Generator.to_user r) ids
             /\ Generator.from_user r <> Generator.to_user r)
    /\ (forall k ts g2,
           2 <= n \/ k = 0 ->
           exists rows g3,
             Generator.generate_interactions users k ts g2 = Some (rows, g3)).
Proof.
  intros n start_date g users ids. split; [|split].
  - intros ppu ts g1 r. apply posts_loop_owner.
  - intros k ts g2 rows g3 H r Hin.
    destruct (interactions_loop_rows _ _ _ _ _ _ H r Hin)
      as (p & q & _ & _ & Hpq & Hp & Hq & _).
    fold ids in Hp, Hq.
    split; [exact (nth_error_In _ _ Hp)|].
    split; [exact (nth_error_In _ _ Hq)|].
    intros Heq. apply Hpq.
    assert (Hnd : NoDup ids) by apply generate_users_nodup.
    rewrite Heq in Hp.
    apply (proj1 (NoDup_nth_error ids) Hnd p q); [|congruence].
    apply nth_error_Some. congruence.
  - intros k ts g2 [Hn | ->].
    + apply generate_interactions_total.
      unfold users. rewrite generate_users_length. exact Hn.
    + exists [], g2. reflexivity.
Qed.

(** C9.  Every interaction row goes from a user to one that is not older:
    the ages looked up for [from_user] and [to_user] are those of two rows
    of the users table, and the sender's is the greater or equal one. *)
Theorem interactions_sender_is_not_younger :
  forall (users_df : list Generator.User) (n_interactions : nat) (start_ts : pystr)
         (g g' : Generator.rng) (rows : list Generator.Interaction),
    Generator.generate_interactions users_df n_interactions start_ts g = Some (rows, g') ->
    forall r, In r rows ->
      exists sender recipient,
        In sender users_df /\ In recipient users_df
        /\ Generator.user_id sender = Generator.from_user r
        /\ Generator.user_id recipient = Generator.to_user r
        /\ dict_get (Generator.from_user r) (Generator.ages_of users_df)
           = Some (Generator.age sender)
        /\ dict_get (Generator.to_user r) (Generator.ages_of users_df)
           = Some (Generator.age recipient)
        /\ (Generator.age recipient <= Generator.age sender)%Z.
Proof.
  intros users_df k ts g g' rows H r Hin.
  destruct (interactions_loop_rows _ _ _ _ _ _ H r Hin)
    as (p & q & a_from & a_to & _ & Hp & Hq & Hfrom & Hto & Hle).
  destruct (ages_of_get users_df _ (nth_error_In _ _ Hp)) as (s & Hs & Hsid & Hsage).
  destruct (ages_of_get users_df _ (nth_error_In _ _ Hq)) as (t & Ht & Htid & Htage).
  exists s, t. repeat split; auto.
  rewrite Hfrom in Hsage. rewrite Hto in Htage.
  inversion Hsage; inversion Htage; subst. exact Hle.
Qed.

Lemma interactions_sender_is_not_younger_witness :
  let users := fst (Generator.generate_users 3 (u "2024-01-01") count_tape) in
  exists rows g',
    Generator.generate_interactions users 2 (u "2024-03-01") count_tape = Some (rows, g')
    /\ forall r, In r rows ->
         exists sender recipient,
           In sender users /\ In recipient users
           /\ Generator.user_id sender = Generator.from_user r
           /\ Generator.user_id recipient = Generator.to_user r
           /\ dict_get (Generator.from_user r) (Generator.ages_of users)
              = Some (Generator.age sender)
           /\ dict_get (Generator.to_user r) (Generator.ages_of users)
              = Some (Generator.age recipient)
           /\ (Generator.age recipient <= Generator.age sender)%Z.
Proof.
  intros users.
  destruct (Generator.generate_interactions users 2 (u "2024-03-01") count_tape)
    as [[rows g']|] eqn:E; [|vm_compute in E; discriminate].
  exists rows, g'. split; [reflexivity|].
  exact (@interactions_sender_is_not_younger users 2 (u "2024-03-01") count_tape g' rows E).
Defined.

(* ===================================================================== *)
(** * Facts about the dashboard                                           *)
(* ===================================================================== *)

(** No file [save_data] writes has one of the names [load_data] reads. *)
Lemma save_data_paths_not_loaded (data_dir prefix : pystr)
    (users : list Generator.User) (posts : list Generator.Post)
    (interactions : list Generator.Interaction) :
  read_back (Generator.save_data data_dir prefix users posts interactions)
    (App.path_join (u "data") (u "users.csv")) = None.
Proof.
  unfold read_back, Generator.save_data, Generator.path_join. cbn [List.find fst snd].
  assert (Hload : App.path_join (u "data") (u "users.csv")
                  = u "data/use" ++ u "rs.csv") by reflexivity.
  rewrite Hload.
  rewrite !pystr_eqb_neq; [reflexivity| | |].
  - replace (data_dir ++ u "/" ++ prefix ++ u "_interactions.csv")
      with ((data_dir ++ u "/" ++ prefix ++ u "_interactio") ++ u "ns.csv")
      by (rewrite <- !app_assoc; reflexivity).
    apply suffix_differs; [reflexivity|discriminate].
  - replace (data_dir ++ u "/" ++ prefix ++ u "_posts.csv")
      with ((data_dir ++ u "/" ++ prefix ++ u "_pos") ++ u "ts.csv")
      by (rewrite <- !app_assoc; reflexivity).
    apply suffix_differs; [reflexivity|discriminate].
  - replace (data_dir ++ u "/" ++ prefix ++ u "_users.csv")
      with ((data_dir ++ u "/" ++ prefix ++ u "_use") ++ u "rs.csv")
      by (rewrite <- !app_assoc; reflexivity).
    replace (u "data/use") with (u "data" ++ u "/use") by reflexivity.
    intros H.
    assert (H' : (data_dir ++ u "/" ++ prefix) ++ u "_users.csv"
                 = u "data" ++ u "/users.csv").
    { rewrite <- !app_assoc in *. exact H. }
    revert H'. apply suffix_differs; [reflexivity|discriminate].
Qed.

Lemma load_data_after_save_data (data_dir prefix : pystr)
    (users : list Generator.User) (posts : list Generator.Post)
    (interactions : list Generator.Interaction) :
  App.load_data
    (read_back (Generator.save_data data_dir prefix users posts interactions)) = None.
Proof.
  unfold App.load_data. now rewrite save_data_paths_not_loaded.
Qed.

(** C5.  A run of the generator with its default arguments writes
    [data/safescroll_users.csv], [data/safescroll_posts.csv] and
    [data/safescroll_interactions.csv]; [load_data] asks for
    [data/users.csv] first and so fails on a tree that holds exactly the
    generated files. *)
Theorem default_run_files_are_not_loaded :
  forall g : Generator.rng,
    exists files,
      Generator.main Generator.default_args g = Some files
      /\ List.map fst files
         = [ u "data/safescroll_users.csv"; u "data/safescroll_posts.csv";
             u "data/safescroll_interactions.csv" ]
      /\ App.load_data (read_back files) = None.
Proof.
  intros g. unfold Generator.main.
  change (Generator.arg_users Generator.default_args) with 20.
  change (Generator.arg_interactions Generator.default_args) with 60.
  pose proof (generate_users_length 20 (u "2024-01-01") g) as Hlen.
  destruct (Generator.generate_users 20 (u "2024-01-01") g) as [users g1].
  cbn [fst] in Hlen.
  destruct (Generator.generate_posts users _ _ g1) as [posts g2].
  destruct (@generate_interactions_total users 60 (u "2024-03-01") g2 ltac:(lia))
    as (rows & g3 & Hrows).
  rewrite Hrows.
  eexists. split; [reflexivity|]. split; [reflexivity|].
  apply load_data_after_save_data.
Qed.

(** C8, as stated, fails: with a directory at the policy path
    [Path.exists] is true and [read_text] raises. *)
Lemma load_policies_raises_on_a_directory :
  ~ (forall fs : App.filesystem, exists text, App.load_policies fs = Some text).
Proof.
  intros H. destruct (H policies_is_directory) as [text Ht].
  vm_compute in Ht. discriminate.
Qed.

(** C8, amended.  [load_policies] returns the literal fallback when nothing
    exists at the policy path and the text of the file when the path is a
    file of valid UTF-8; when the path exists and is a directory or a file
    that does not decode, the read raises. *)
Theorem load_policies_by_cases :
  forall fs : App.filesystem,
    (fs App.POLICY_PATH = None ->
     App.load_policies fs = Some (u "No policies found."))
    /\ (forall text, fs App.POLICY_PATH = Some (App.File (Some text)) ->
                     App.load_policies fs = Some text)
    /\ (fs App.POLICY_PATH = Some App.Directory
        \/ fs App.POLICY_PATH = Some (App.File None) ->
        App.load_policies fs = None).
Proof.
  intros fs. unfold App.load_policies, App.path_exists, App.read_text.
  split; [|split].
  - intros ->. reflexivity.
  - intros text ->. reflexivity.
  - intros [-> | ->]; reflexivity.
Qed.

Section AuditFacts.
Import Json Agents App.
Variable World : Type.
Variable create : request -> World -> completion * World.
Variable float_repr : pystr -> pystr.

(** One call of the helper sends exactly one request. *)
Lemma run_json_agent_sends_one (system_prompt user_content : pystr) (max_tokens : Z)
    (s : session World) :
  sent (snd (_run_json_agent create system_prompt user_content max_tokens s))
  = sent s ++ [ {| req_model := LLM_MODEL; req_system := system_prompt;
                   req_user := user_content; req_max_tokens := max_tokens |} ].
Proof.
  unfold _run_json_agent, bind, chat_completions_create, ret.
  destruct (create _ (world s)) as [c w]. reflexivity.
Qed.

(** What the helper returns, by the completion it gets. *)
Lemma run_json_agent_result (system_prompt user_content : pystr) (max_tokens : Z)
    (s : session World) (content : pystr) :
  fst (create {| req_model := LLM_MODEL; req_system := system_prompt;
                 req_user := user_content; req_max_tokens := max_tokens |} (world s))
  = Content (Some content) ->
  fst (_run_json_agent create system_prompt user_content max_tokens s)
  = match loads content with
    | Some v => v
    | None =>
        if (rfind 123%N content =? -1)%Z then JNull
        else match loads (slice_from (rfind 123%N content) content) with
             | Some v => v
             | None => JDict [(u "error", JStr (u "failed to parse JSON"));
                              (u "raw", JStr content)]
             end
    end.
Proof.
  unfold _run_json_agent, bind, chat_completions_create, ret.
  destruct (create _ (world s)) as [c w]. cbn [fst]. intros ->. reflexivity.
Qed.
End AuditFacts.

(** C3, as stated, fails: in demo mode the content result shown for one
    user differs from the one shown for another user of the same tables. *)
Lemma demo_results_differ_between_users :
  ~ (forall sel1 sel2 : pystr,
        In sel1 (List.map App.user_id sample_users) ->
        In sel2 (List.map App.user_id sample_users) ->
        fst (App.main (constant_endpoint Agents.NoContent) (fun lit => lit) None
               sample_users sample_posts sample_interactions (u "No policies found.")
               sel1 true (fresh tt))
        = fst (App.main (constant_endpoint Agents.NoContent) (fun lit => lit) None
                 sample_users sample_posts sample_interactions (u "No policies found.")
                 sel2 true (fresh tt))).
Proof.
  intros H.
  specialize (H (u "u1") (u "u2") ltac:(vm_compute; auto) ltac:(vm_compute; auto)).
  vm_compute in H. discriminate.
Qed.

(** C3, amended.  Without a key, a press of the button sends nothing and
    leaves the endpoint untouched; the underage, policy and report results
    are fixed literals, and the content and interaction results are fixed
    literals around the id and text of the selected user's first post and
    first interaction (or around fixed defaults when there is none). *)
Theorem demo_mode_makes_no_call :
  forall (World : Type) (create : Agents.request -> World -> Agents.completion * World)
         (float_repr : pystr -> pystr) (env_key : option pystr)
         (users : list App.UserRow) (posts : list App.PostRow)
         (interactions : list App.InteractionRow) (policies_text selected : pystr)
         (row : App.UserRow) (s : Agents.session World),
    App.key_present env_key = false ->
    List.find (fun r => pystr_eqb (App.user_id r) selected) users = Some row ->
    App.main create float_repr env_key users posts interactions policies_text selected true s
    = (App.Audited
         {| App.underage_res := App.demo_underage_res;
            App.content_res :=
              App.demo_content_res
                (List.filter (fun p => pystr_eqb (App.post_user_id p) selected) posts);
            App.interaction_res :=
              App.demo_interaction_res
                (List.filter (fun i => pystr_eqb (App.from_user i) selected
                                       || pystr_eqb (App.to_user i) selected) interactions);
            App.policy_res := App.demo_policy_res;
            App.report_res := App.demo_report_res |},
       s).
Proof.
  intros World create float_repr env_key users posts interactions policies_text selected
    row s Hkey Hrow.
  unfold App.main. rewrite Hrow, Hkey. reflexivity.
Qed.

Lemma demo_mode_makes_no_call_witness :
  App.main (constant_endpoint Agents.NoContent) (fun lit => lit) (Some [])
    sample_users sample_posts sample_interactions (u "No policies found.") (u "u2") true
    (fresh tt)
  = (App.Audited
       {| App.underage_res := App.demo_underage_res;
          App.content_res :=
            App.demo_content_res
              (List.filter (fun p => pystr_eqb (App.post_user_id p) (u "u2")) sample_posts);
          App.interaction_res :=
            App.demo_interaction_res
              (List.filter (fun i => pystr_eqb (App.from_user i) (u "u2")
                                     || pystr_eqb (App.to_user i) (u "u2"))
                 sample_interactions);
          App.policy_res := App.demo_policy_res;
          App.report_res := App.demo_report_res |},
     fresh tt).
Proof.
  apply (@demo_mode_makes_no_call unit (constant_endpoint Agents.NoContent) (fun lit => lit)
           (Some []) sample_users sample_posts sample_interactions
           (u "No policies found.") (u "u2") sample_user_2 (fresh tt)).
  - reflexivity.
  - reflexivity.
Defined.

(** C6, as stated, fails: a key that holds the placeholder text is a key
    (the run is not in demo mode), yet the press of the button is refused
    before any agent runs. *)
Lemma placeholder_key_runs_no_agent :
  App.key_present (Some App.PLACEHOLDER) = true
  /\ App.main (constant_endpoint Agents.NoContent) (fun lit => lit)
       (Some App.PLACEHOLDER) sample_users sample_posts sample_interactions
       (u "No policies found.") (u "u1") true (fresh tt)
     = (App.KeyRefused, fresh tt).
Proof. split; reflexivity. Qed.

(** C6, amended.  With a non-empty key that does not contain the
    placeholder text, a press of the button runs the underage, content and
    interaction agents, then the policy agent on the aggregate of their
    three results, then the report agent on all four results; the session
    grows by exactly five requests, one per agent and in that order. *)
Theorem real_mode_runs_five_agents_in_sequence :
  forall (World : Type) (create : Agents.request -> World -> Agents.completion * World)
         (float_repr : pystr -> pystr) (api_key : pystr)
         (users : list App.UserRow) (posts : list App.PostRow)
         (interactions : list App.InteractionRow) (policies_text selected : pystr)
         (row : App.UserRow) (s : Agents.session World),
    App.key_present (Some api_key) = true ->
    contains App.PLACEHOLDER api_key = false ->
    List.find (fun r => pystr_eqb (App.user_id r) selected) users = Some row ->
    let user_row := App.user_to_dict row in
    let posts_payload :=
      App.posts_records
        (List.filter (fun p => pystr_eqb (App.post_user_id p) selected) posts) in
    let inter_payload :=
      App.inter_payload_of users
        (List.filter (fun i => pystr_eqb (App.from_user i) selected
                               || pystr_eqb (App.to_user i) selected) interactions) in
    exists r1 s1 r2 s2 r3 s3 r4 s4 r5 s5,
      Agents.underage_risk_agent create float_repr user_row posts_payload s = (r1, s1)
      /\ Agents.content_risk_agent create float_repr posts_payload s1 = (r2, s2)
      /\ Agents.interaction_risk_agent create float_repr user_row inter_payload s2 = (r3, s3)
      /\ Agents.policy_violation_agent create float_repr policies_text
           (Json.JDict [ (u "underage", r1); (u "content", r2); (u "interactions", r3) ]) s3
         = (r4, s4)
      /\ Agents.report_generator_agent create float_repr user_row r1 r2 r3 r4 s4 = (r5, s5)
      /\ App.main create float_repr (Some api_key) users posts interactions policies_text
           selected true s
         = (App.Audited {| App.underage_res := r1; App.content_res := r2;
                           App.interaction_res := r3; App.policy_res := r4;
                           App.report_res := r5 |}, s5)
      /\ List.map Agents.req_system (Agents.sent s5)
         = List.map Agents.req_system (Agents.sent s)
           ++ [ Agents.underage_risk_agent_prompt; Agents.content_risk_agent_prompt;
                Agents.interaction_risk_agent_prompt; Agents.policy_violation_agent_prompt;
                Agents.report_generator_agent_prompt ].
Proof.
  intros World create float_repr api_key users posts interactions policies_text selected
    row s Hkey Hph Hrow user_row posts_payload inter_payload.
  unfold App.main. rewrite Hrow, Hkey, Hph. cbn [negb orb].
  fold user_row posts_payload inter_payload. unfold Agents.bind.
  destruct (Agents.underage_risk_agent create float_repr user_row posts_payload s)
    as [r1 s1] eqn:E1.
  destruct (Agents.content_risk_agent create float_repr posts_payload s1)
    as [r2 s2] eqn:E2.
  destruct (Agents.interaction_risk_agent create float_repr user_row inter_payload s2)
    as [r3 s3] eqn:E3.
  destruct (Agents.policy_violation_agent create float_repr policies_text
              (Json.JDict [ (u "underage", r1); (u "content", r2); (u "interactions", r3) ])
              s3) as [r4 s4] eqn:E4.
  destruct (Agents.report_generator_agent create float_repr user_row r1 r2 r3 r4 s4)
    as [r5 s5] eqn:E5.
  exists r1, s1, r2, s2, r3, s3, r4, s4, r5, s5.
  repeat (split; [first [reflexivity | assumption]|]).
  apply (f_equal snd) in E1, E2, E3, E4, E5. cbn [snd] in *.
  subst s5 s4 s3 s2 s1.
  unfold Agents.report_generator_agent, Agents.policy_violation_agent,
    Agents.interaction_risk_agent, Agents.content_risk_agent, Agents.underage_risk_agent.
  rewrite !run_json_agent_sends_one, !map_app, <- !app_assoc. reflexivity.
Qed.

Lemma real_mode_runs_five_agents_in_sequence_witness :
  exists r1 s1 r2 s2 r3 s3 r4 s4 r5 s5,
    Agents.underage_risk_agent (constant_endpoint Agents.NoContent) (fun lit => lit)
      (App.user_to_dict sample_user_1)
      (App.posts_records
         (List.filter (fun p => pystr_eqb (App.post_user_id p) (u "u1")) sample_posts))
      (fresh tt) = (r1, s1)
    /\ Agents.content_risk_agent (constant_endpoint Agents.NoContent) (fun lit => lit)
         (App.posts_records
            (List.filter (fun p => pystr_eqb (App.post_user_id p) (u "u1")) sample_posts))
         s1 = (r2, s2)
    /\ Agents.interaction_risk_agent (constant_endpoint Agents.NoContent) (fun lit => lit)
         (App.user_to_dict sample_user_1)
         (App.inter_payload_of sample_users
            (List.filter (fun i => pystr_eqb (App.from_user i) (u "u1")
                                   || pystr_eqb (App.to_user i) (u "u1"))
               sample_interactions))
         s2 = (r3, s3)
    /\ Agents.policy_violation_agent (constant_endpoint Agents.NoContent) (fun lit => lit)
         (u "No policies found.")
         (Json.JDict [ (u "underage", r1); (u "content", r2); (u "interactions", r3) ]) s3
       = (r4, s4)
    /\ Agents.report_generator_agent (constant_endpoint Agents.NoContent) (fun lit => lit)
         (App.user_to_dict sample_user_1) r1 r2 r3 r4 s4 = (r5, s5)
    /\ App.main (constant_endpoint Agents.NoContent) (fun lit => lit) (Some (u "sk-test"))
         sample_users sample_posts sample_interactions (u "No policies found.") (u "u1")
         true (fresh tt)
       = (App.Audited {| App.underage_res := r1; App.content_res := r2;
                         App.interaction_res := r3; App.policy_res := r4;
                         App.report_res := r5 |}, s5)
    /\ List.map Agents.req_system (Agents.sent s5)
       = List.map Agents.req_system (Agents.sent (fresh tt))
         ++ [ Agents.underage_risk_agent_prompt; Agents.content_risk_agent_prompt;
              Agents.interaction_risk_agent_prompt; Agents.policy_violation_agent_prompt;
              Agents.report_generator_agent_prompt ].
Proof.
  apply (@real_mode_runs_five_agents_in_sequence unit
           (constant_endpoint Agents.NoContent) (fun lit => lit) (u "sk-test")
           sample_users sample_posts sample_interactions (u "No policies found.")
           (u "u1") sample_user_1 (fresh tt)).
  - reflexivity.
  - reflexivity.
  - reflexivity.
Defined.

(** C1.  A reply with no brace in it that is not JSON makes the helper
    return [None], which is no dict. *)
Theorem run_json_agent_returns_None_for_plain_text :
  forall (system_prompt user_content : pystr) (max_tokens : Z),
    let result :=
      fst (Agents._run_json_agent
             (constant_endpoint (Agents.Content (Some (u "hello"))))
             system_prompt user_content max_tokens (fresh tt)) in
    result = Json.JNull /\ Json.is_dict result = false.
Proof. intros. split; reflexivity. Qed.

(** A reply that is JSON but no object is returned as it is. *)
Lemma run_json_agent_returns_a_list :
  forall (system_prompt user_content : pystr) (max_tokens : Z),
    fst (Agents._run_json_agent
           (constant_endpoint (Agents.Content (Some (u "[1, 2]"))))
           system_prompt user_content max_tokens (fresh tt))
    = Json.JList [Json.JInt 1; Json.JInt 2].
Proof. intros. reflexivity. Qed.

(** C2, as stated, fails: text after the object, or an object nested in the
    object, makes the fallback give up with the error object. *)
Lemma fallback_misses_embedded_objects :
  ~ (forall (pre obj post : pystr) (d : list (pystr * Json.value)),
        pre <> [] \/ post <> [] ->
        Json.loads obj = Some (Json.JDict d) ->
        fst (Agents._run_json_agent
               (constant_endpoint (Agents.Content (Some (pre ++ obj ++ post))))
               [] [] 400 (fresh tt))
        = Json.JDict d).
Proof.
  intros H.
  specialize (H [] sample_object_text (u " thanks") sample_object
                ltac:(right; discriminate) ltac:(reflexivity)).
  vm_compute in H. discriminate.
Qed.

Lemma fallback_misses_nested_objects :
  fst (Agents._run_json_agent
         (constant_endpoint (Agents.Content (Some (u "Result: " ++ sample_nested_text))))
         [] [] 400 (fresh tt))
  = Json.JDict [ (u "error", Json.JStr (u "failed to parse JSON"));
                 (u "raw", Json.JStr (u "Result: " ++ sample_nested_text)) ].
Proof. reflexivity. Qed.

Lemma slice_from_app (pre obj : pystr) :
  slice_from (Z.of_nat (length pre)) (pre ++ obj) = obj.
Proof.
  unfold slice_from. rewrite Nat2Z.id.
  rewrite skipn_app, skipn_all, Nat.sub_diag. reflexivity.
Qed.

(** C2, amended.  When the reply is not JSON as a whole and consists of
    extra text followed by the text of a JSON object, and the last opening
    brace of the reply is the one that opens this object, the fallback
    returns the object as a dict. *)
Theorem fallback_recovers_trailing_object :
  forall (World : Type) (create : Agents.request -> World -> Agents.completion * World)
         (system_prompt user_content : pystr) (max_tokens : Z) (s : Agents.session World)
         (pre obj : pystr) (d : list (pystr * Json.value)),
    fst (create {| Agents.req_model := Agents.LLM_MODEL;
                   Agents.req_system := system_prompt;
                   Agents.req_user := user_content;
                   Agents.req_max_tokens := max_tokens |} (Agents.world s))
    = Agents.Content (Some (pre ++ obj)) ->
    Json.loads (pre ++ obj) = None ->
    rfind 123%N (pre ++ obj) = Z.of_nat (length pre) ->
    Json.loads obj = Some (Json.JDict d) ->
    fst (Agents._run_json_agent create system_prompt user_content max_tokens s)
    = Json.JDict d.
Proof.
  intros World create sp uc mt s pre obj d Hreply Hstrict Hlast Hobj.
  rewrite (run_json_agent_result create sp uc mt s Hreply).
  rewrite Hstrict, Hlast, slice_from_app, Hobj.
  destruct (Z.eqb_spec (Z.of_nat (length pre)) (-1)); [lia|reflexivity].
Qed.

Lemma fallback_recovers_trailing_object_witness :
  fst (Agents._run_json_agent
         (constant_endpoint (Agents.Content (Some (u "Sure, here it is: " ++ sample_object_text))))
         [] [] 400 (fresh tt))
  = Json.JDict sample_object.
Proof.
  apply (@fallback_recovers_trailing_object unit
           (constant_endpoint (Agents.Content (Some (u "Sure, here it is: " ++ sample_object_text))))
           [] [] 400 (fresh tt) (u "Sure, here it is: ") sample_object_text sample_object).
  - reflexivity.
  - reflexivity.
  - reflexivity.
  - reflexivity.
Defined.



(* ===================================================================== *)
(** * Further facts about agents.py                                       *)
(* ===================================================================== *)

Section BraceFacts.
Import Json.

(** Past the last occurrence of a character there is none. *)
Lemma rfind_from_absent (c : N) (s : pystr) :
  forall i last, ~ In c s -> rfind_from c s i last = last.
Proof.
  induction s as [|x s IH]; intros i last Hn; simpl; [reflexivity|].
  rewrite (proj2 (N.eqb_neq x c)) by (intros ->; apply Hn; now left).
  apply IH. intros H. apply Hn. now right.
Qed.

Lemma rfind_from_last (c : N) (pre post : pystr) :
  forall i last, ~ In c post ->
    rfind_from c (pre ++ c :: post) i last = (i + Z.of_nat (length pre))%Z.
Proof.
  induction pre as [|x pre IH]; intros i last Hn.
  - simpl. rewrite N.eqb_refl. rewrite rfind_from_absent by assumption. lia.
  - cbn [app rfind_from length]. rewrite IH by assumption. lia.
Qed.

(** [s.rfind(c)] is [-1] exactly when [c] does not occur; otherwise it is
    the index after which [c] occurs no more. *)
Lemma rfind_cases (c : N) (s : pystr) :
  (rfind c s = (-1)%Z /\ ~ In c s)
  \/ (exists pre post, s = pre ++ c :: post /\ ~ In c post
                       /\ rfind c s = Z.of_nat (length pre)).
Proof.
  unfold rfind.
  assert (H : forall i last,
             (rfind_from c s i last = last /\ ~ In c s)
             \/ (exists pre post, s = pre ++ c :: post /\ ~ In c post
                                  /\ rfind_from c s i last = (i + Z.of_nat (length pre))%Z)).
  { induction s as [|x s IH]; intros i last.
    - left. simpl. auto.
    - cbn [rfind_from].
      destruct (IH (i + 1)%Z (if (x =? c)%N then i else last))
        as [[Hr Hn]|(pre & post & Hs & Hn & Hr)].
      + destruct (N.eqb_spec x c) as [->|Hne].
        * right. exists [], s. repeat split; auto. rewrite Hr. simpl. lia.
        * left. split; [assumption|]. intros [H|H]; auto.
      + right. exists (x :: pre), post. subst s. repeat split; auto.
        rewrite Hr. cbn [length]. lia. }
  destruct (H 0%Z (-1)%Z) as [?|(pre & post & Hs & Hn & Hr)]; [now left|].
  right. exists pre, post. repeat split; auto.
Qed.

Lemma object_pairs_is_dict (fuel : nat) :
  forall s acc v r, object_pairs fuel s acc = Ok v r -> is_dict v = true.
Proof.
  induction fuel as [|fuel IH]; intros s acc v r H; [discriminate|].
  cbn [object_pairs] in H.
  destruct (py_scanstring s) as [key r0| |]; try discriminate.
  destruct (skip_ws r0) as [|c r1]; [discriminate|].
  destruct (c =? 58)%N; [|discriminate].
  destruct (scan_once fuel (skip_ws r1)) as [x r2| |]; try discriminate.
  destruct (skip_ws r2) as [|c' r3]; [discriminate|].
  destruct (c' =? 125)%N; [inversion H; reflexivity|].
  destruct (c' =? 44)%N; [|discriminate].
  destruct (skip_ws r3) as [|c'' r4]; [discriminate|].
  destruct (c'' =? 34)%N; [|discriminate].
  eapply IH; eassumption.
Qed.

(** A text that starts with an opening brace decodes to a dict or not at
    all. *)
Lemma loads_brace_is_dict (r : pystr) (v : value) :
  loads (123%N :: r) = Some v -> is_dict v = true.
Proof.
  unfold loads. cbn [strip_prefix N.eqb Pos.eqb skip_ws is_ws orb].
  rewrite Nat.add_comm. cbn [Nat.add scan_once N.eqb Pos.eqb].
  destruct (skip_ws r) as [|c1 r1]; [discriminate|].
  destruct (c1 =? 125)%N.
  { destruct (skip_ws r1); intros H; inversion H; reflexivity. }
  destruct (c1 =? 34)%N; [|discriminate].
  destruct (object_pairs _ r1 []) as [x r2| |] eqn:E; try discriminate.
  apply object_pairs_is_dict in E.
  destruct (skip_ws r2); intros H; inversion H; subst; assumption.
Qed.
End BraceFacts.

(** X1.  Whatever the endpoint does, the helper returns a dict, or [None],
    or the value the strict parse of the reply gave; [None] comes only from
    a reply that is not JSON and holds no opening brace. *)
Theorem run_json_agent_result_shapes :
  forall (World : Type) (create : Agents.request -> World -> Agents.completion * World)
         (system_prompt user_content : pystr) (max_tokens : Z) (s : Agents.session World),
    let reply :=
      fst (create {| Agents.req_model := Agents.LLM_MODEL;
                     Agents.req_system := system_prompt;
                     Agents.req_user := user_content;
                     Agents.req_max_tokens := max_tokens |} (Agents.world s)) in
    let result :=
      fst (Agents._run_json_agent create system_prompt user_content max_tokens s) in
    Json.is_dict result = true
    \/ (exists content, reply = Agents.Content (Some content)
                        /\ Json.loads content = Some result)
    \/ (exists content, reply = Agents.Content (Some content)
                        /\ Json.loads content = None
                        /\ ~ In 123%N content
                        /\ result = Json.JNull).
Proof.
  intros World create sp uc mt s reply result.
  unfold result, Agents._run_json_agent, Agents.bind, Agents.chat_completions_create,
    Agents.ret.
  unfold reply. destruct (create _ (Agents.world s)) as [c w]. cbn [fst].
  destruct c as [e| |[content|]]; try (left; reflexivity).
  destruct (Json.loads content) as [v|] eqn:Estrict.
  - right. left. exists content. auto.
  - destruct (rfind_cases 123%N content) as [[Hr Hn]|(pre & post & Hs & Hn & Hr)].
    + right. right. exists content. rewrite Hr. cbn [Z.eqb]. auto.
    + left. rewrite Hr.
      destruct (Z.eqb_spec (Z.of_nat (length pre)) (-1)); [lia|].
      subst content. rewrite slice_from_app.
      destruct (Json.loads (123%N :: post)) as [v|] eqn:Eobj; [|reflexivity].
      now apply loads_brace_is_dict in Eobj.
Qed.

Section PaddingFacts.
Import Json.
Variable float_repr : pystr -> pystr.
Variable ensure_ascii : bool.

Lemma skip_ws_padding (ws s : pystr) :
  forallb is_ws ws = true -> skip_ws (ws ++ s) = skip_ws s.
Proof.
  induction ws as [|c ws IH]; simpl; [reflexivity|].
  intros H. apply andb_true_iff in H as [Hc Hws]. now rewrite Hc, IH.
Qed.

Lemma ends_number_padding (ws : pystr) :
  forallb is_ws ws = true -> ends_number ws = true.
Proof.
  destruct ws as [|c ws]; [reflexivity|]. simpl. intros H.
  apply andb_true_iff in H as [Hc _]. unfold is_ws in Hc.
  repeat (apply orb_true_iff in Hc as [Hc|Hc]);
    apply N.eqb_eq in Hc; subst; reflexivity.
Qed.

(** White space around the encoding of a JSON value does not matter. *)
Lemma loads_padded_dumps (ws1 ws2 : pystr) (v : value) :
  forallb is_ws ws1 = true -> forallb is_ws ws2 = true -> is_json v = true ->
  loads (ws1 ++ dumps float_repr ensure_ascii v ++ ws2) = Some v.
Proof.
  intros H1 H2 Hv. unfold loads.
  destruct (dumps_head float_repr ensure_ascii v Hv) as (c & tl & Hd & Hc).
  apply value_start_not_ws in Hc as (Hws & _ & Hbom).
  assert (Hstrip : strip_prefix [65279%N]
                     (ws1 ++ dumps float_repr ensure_ascii v ++ ws2) = None).
  { destruct ws1 as [|w ws1].
    - rewrite Hd. cbn [app strip_prefix].
      rewrite N.eqb_sym, (proj2 (N.eqb_neq c 65279) Hbom). reflexivity.
    - cbn [app strip_prefix]. simpl in H1. apply andb_true_iff in H1 as [Hw _].
      destruct (N.eqb_spec 65279 w) as [<-|]; [discriminate|reflexivity]. }
  rewrite Hstrip, skip_ws_padding, skip_ws_dumps by assumption.
  rewrite (@scan_once_dumps float_repr ensure_ascii v Hv ws2).
  - rewrite <- (app_nil_r ws2), skip_ws_padding by assumption. reflexivity.
  - now apply ends_number_padding.
  - rewrite length_app. lia.
Qed.
End PaddingFacts.



Section PayloadFacts.
Import Json Agents.
Variable World : Type.
Variable create : request -> World -> completion * World.
Variable float_repr : pystr -> pystr.

(** What the agents send decodes to what they were given. *)
Lemma loads_json_dumps (v : value) :
  is_json v = true -> loads (json_dumps float_repr v) = Some v.
Proof. apply loads_dumps. Qed.
End PayloadFacts.





(* ===================================================================== *)
(** * Further facts about app.py                                          *)
(* ===================================================================== *)

(** Case analysis on every test of the goal. *)
Ltac destruct_tests :=
  repeat match goal with
         | |- context [if ?b then _ else _] => destruct b
         end.

Section LookupFacts.
Variable A : Type.

Lemma dict_get_absent (ps : list (pystr * A)) (k : pystr) :
  ~ In k (List.map fst ps) -> dict_get k ps = None.
Proof.
  induction ps as [|[k' v'] ps IH]; simpl; intros Hn; [reflexivity|].
  rewrite pystr_eqb_neq by (intros ->; apply Hn; now left).
  apply IH. intros H. apply Hn. now right.
Qed.

Lemma dict_get_present (ps : list (pystr * A)) (k : pystr) (v : A) :
  NoDup (List.map fst ps) -> In (k, v) ps -> dict_get k ps = Some v.
Proof.
  induction ps as [|[k' v'] ps IH]; simpl; intros Hnd Hin; [contradiction|].
  inversion Hnd as [|? ? Hnotin Hnd']; subst.
  destruct Hin as [Heq|Hin].
  - inversion Heq; subst. now rewrite pystr_eqb_refl.
  - rewrite pystr_eqb_neq; [now apply IH|].
    intros ->. apply Hnotin. apply (in_map fst) in Hin. exact Hin.
Qed.
End LookupFacts.

Section ReportFacts.
Import Json Agents App.
Variable World : Type.
Variable create : request -> World -> completion * World.
Variable float_repr : pystr -> pystr.

Lemma run_json_agent_raised (system_prompt user_content : pystr) (max_tokens : Z)
    (s : session World) (e : pystr) :
  fst (create {| req_model := LLM_MODEL; req_system := system_prompt;
                 req_user := user_content; req_max_tokens := max_tokens |} (world s))
  = Raised e ->
  fst (_run_json_agent create system_prompt user_content max_tokens s) = request_failed e.
Proof.
  unfold _run_json_agent, bind, chat_completions_create, ret.
  destruct (create _ (world s)) as [c w]. cbn [fst]. intros ->. reflexivity.
Qed.

Lemma run_json_agent_sent_length (system_prompt user_content : pystr) (max_tokens : Z)
    (s : session World) :
  length (sent (snd (_run_json_agent create system_prompt user_content max_tokens s)))
  = S (length (sent s)).
Proof. rewrite run_json_agent_sends_one, length_app. simpl. lia. Qed.

Lemma severity_bounds (overall : list (pystr * value)) (key : pystr) (n : Z) :
  severity overall key = Some n -> (0 <= n <= 4)%Z.
Proof.
  unfold severity.
  destruct (match dict_get key overall with Some x => x | None => JStr (u "none") end)
    as [| b | z | lit | s | items | pairs];
    intros H; inversion H; subst; try lia.
  unfold risk_map. cbn [dict_get]. destruct_tests; lia.
Qed.

Lemma inter_age_declared (users : list UserRow) (uid : pystr) :
  NoDup (List.map user_id users) ->
  declared_age users uid
    match dict_get uid (dict_of_pairs (List.map (fun r => (user_id r, age r)) users)) with
    | Some a => a
    | None => (-1)%Z
    end.
Proof.
  intros Hnd.
  rewrite dict_of_pairs_nodup by (now rewrite map_map).
  destruct (in_dec (list_eq_dec N.eq_dec) uid (List.map user_id users)) as [Hin|Hout].
  - apply in_map_iff in Hin as (r & Hid & Hr). left. exists r.
    rewrite (@dict_get_present Z _ uid (age r)); auto.
    + now rewrite map_map.
    + apply in_map_iff. exists r. split; [now rewrite Hid|assumption].
  - right. rewrite dict_get_absent; [auto|]. now rewrite map_map.
Qed.
End ReportFacts.

(** X5.  Nothing is sent and the endpoint is left as it was unless the
    button is pressed, a key is set, the key does not contain the
    placeholder text and the selected user is in the users table. *)
Theorem main_sends_nothing_outside_the_real_flow :
  forall (World : Type) (create : Agents.request -> World -> Agents.completion * World)
         (float_repr : pystr -> pystr) (env_key : option pystr)
         (users : list App.UserRow) (posts : list App.PostRow)
         (interactions : list App.InteractionRow) (policies_text selected : pystr)
         (button : bool) (s : Agents.session World),
    button = false
    \/ App.key_present env_key = false
    \/ (exists k, env_key = Some k /\ contains App.PLACEHOLDER k = true)
    \/ List.find (fun r => pystr_eqb (App.user_id r) selected) users = None ->
    snd (App.main create float_repr env_key users posts interactions policies_text
           selected button s) = s.
Proof.
  intros World create float_repr env_key users posts interactions policies_text selected
    button s H.
  unfold App.main.
  destruct (List.find _ users) as [row|]; [|reflexivity].
  destruct button; [|reflexivity].
  destruct (App.key_present env_key) eqn:Ekey; [|reflexivity]. cbn [negb].
  destruct H as [H|[H|[(k & -> & Hk)|H]]]; try discriminate.
  rewrite Hk, orb_true_r. reflexivity.
Qed.

Lemma main_sends_nothing_outside_the_real_flow_witness :
  snd (App.main (constant_endpoint (Agents.Raised [])) (fun lit => lit)
         (Some (u "sk-" ++ App.PLACEHOLDER)) sample_users sample_posts sample_interactions
         (u "No policies found.") (u "u1") true (fresh tt)) = fresh tt.
Proof.
  apply (@main_sends_nothing_outside_the_real_flow unit
           (constant_endpoint (Agents.Raised [])) (fun lit => lit)
           (Some (u "sk-" ++ App.PLACEHOLDER)) sample_users sample_posts
           sample_interactions (u "No policies found.") (u "u1") true (fresh tt)).
  right. right. left. exists (u "sk-" ++ App.PLACEHOLDER). split; reflexivity.
Defined.

(** X6.  When every request raises, the real flow still runs to its end:
    the five results are the five error objects that carry the messages,
    exactly five requests were sent, and the chart block of the report view
    shows its no-data line instead of raising. *)
Theorem real_mode_survives_a_failing_endpoint :
  forall (World : Type) (create : Agents.request -> World -> Agents.completion * World)
         (float_repr : pystr -> pystr) (api_key : pystr)
         (users : list App.UserRow) (posts : list App.PostRow)
         (interactions : list App.InteractionRow) (policies_text selected : pystr)
         (row : App.UserRow) (s : Agents.session World),
    App.key_present (Some api_key) = true ->
    contains App.PLACEHOLDER api_key = false ->
    List.find (fun r => pystr_eqb (App.user_id r) selected) users = Some row ->
    (forall r w, exists e, fst (create r w) = Agents.Raised e) ->
    exists e1 e2 e3 e4 e5 s',
      App.main create float_repr (Some api_key) users posts interactions policies_text
        selected true s
      = (App.Audited {| App.underage_res := Agents.request_failed e1;
                        App.content_res := Agents.request_failed e2;
                        App.interaction_res := Agents.request_failed e3;
                        App.policy_res := Agents.request_failed e4;
                        App.report_res := Agents.request_failed e5 |}, s')
      /\ length (Agents.sent s') = length (Agents.sent s) + 5
      /\ App.content_chart (Agents.request_failed e2) = Some App.NoChart.
Proof.
  intros World create float_repr api_key users posts interactions policies_text selected
    row s Hkey Hph Hrow Hraise.
  unfold App.main. rewrite Hrow, Hkey, Hph. cbn [negb orb].
  unfold Agents.bind, Agents.underage_risk_agent, Agents.content_risk_agent,
    Agents.interaction_risk_agent, Agents.policy_violation_agent,
    Agents.report_generator_agent.
  repeat match goal with
         | |- context [Agents._run_json_agent create ?p ?c ?m ?st] =>
             let e := fresh "e" in
             let He := fresh "He" in
             let Hr := fresh "Hr" in
             let Hl := fresh "Hl" in
             destruct (Hraise {| Agents.req_model := Agents.LLM_MODEL;
                                 Agents.req_system := p; Agents.req_user := c;
                                 Agents.req_max_tokens := m |} (Agents.world st))
               as [e He];
             pose proof (run_json_agent_raised create p c m st He) as Hr;
             pose proof (run_json_agent_sent_length create p c m st) as Hl;
             destruct (Agents._run_json_agent create p c m st); cbn [fst snd] in Hr, Hl;
             subst
         end.
  do 6 eexists. split; [reflexivity|]. split; [lia|reflexivity].
Qed.

Lemma real_mode_survives_a_failing_endpoint_witness :
  exists e1 e2 e3 e4 e5 s',
    App.main (constant_endpoint (Agents.Raised (u "Connection error."))) (fun lit => lit)
      (Some (u "sk-test")) sample_users sample_posts sample_interactions
      (u "No policies found.") (u "u1") true (fresh tt)
    = (App.Audited {| App.underage_res := Agents.request_failed e1;
                      App.content_res := Agents.request_failed e2;
                      App.interaction_res := Agents.request_failed e3;
                      App.policy_res := Agents.request_failed e4;
                      App.report_res := Agents.request_failed e5 |}, s')
    /\ length (Agents.sent s') = length (Agents.sent (fresh tt)) + 5
    /\ App.content_chart (Agents.request_failed e2) = Some App.NoChart.
Proof.
  apply (@real_mode_survives_a_failing_endpoint unit
           (constant_endpoint (Agents.Raised (u "Connection error."))) (fun lit => lit)
           (u "sk-test") sample_users sample_posts sample_interactions
           (u "No policies found.") (u "u1") sample_user_1 (fresh tt)).
  - reflexivity.
  - reflexivity.
  - reflexivity.
  - intros r w. exists (u "Connection error."). reflexivity.
Defined.

(** X7.  For a users table with distinct ids, the payload of the
    interaction agent holds one record per interaction of the selected
    user, in order: the six columns of the row followed by [from_age] and
    [to_age], each the age the table declares for that user, or [-1] for a
    user the table does not have. *)
Theorem inter_payload_reports_declared_ages :
  forall (users : list App.UserRow) (df : list App.InteractionRow),
    NoDup (List.map App.user_id users) ->
    exists records,
      App.inter_payload_of users df = Json.JList records
      /\ Forall2
           (fun row record =>
              exists a_from a_to,
                record = Json.JDict (App.interaction_to_dict row
                                     ++ [ (u "from_age", Json.JInt a_from);
                                          (u "to_age", Json.JInt a_to) ])
                /\ App.declared_age users (App.from_user row) a_from
                /\ App.declared_age users (App.to_user row) a_to)
           df records.
Proof.
  intros users df Hnd. unfold App.inter_payload_of.
  eexists. split; [reflexivity|].
  induction df as [|row df IH]; cbn [List.map]; constructor; [|exact IH].
  eexists. eexists. split; [reflexivity|].
  split; now apply inter_age_declared.
Qed.

Lemma sample_users_distinct : NoDup (List.map App.user_id sample_users).
Proof.
  repeat constructor; simpl; intuition discriminate.
Defined.

Lemma inter_payload_reports_declared_ages_witness :
  exists records,
    App.inter_payload_of sample_users sample_interactions = Json.JList records
    /\ Forall2
         (fun row record =>
            exists a_from a_to,
              record = Json.JDict (App.interaction_to_dict row
                                   ++ [ (u "from_age", Json.JInt a_from);
                                        (u "to_age", Json.JInt a_to) ])
              /\ App.declared_age sample_users (App.from_user row) a_from
              /\ App.declared_age sample_users (App.to_user row) a_to)
         sample_interactions records.
Proof.
  exact (@inter_payload_reports_declared_ages sample_users sample_interactions
           sample_users_distinct).
Defined.

(** X8.  Whenever the chart block draws its bars, each of the four
    severities lies between 0 and 4. *)
Theorem content_chart_bars_are_bounded :
  forall (content_res : Json.value) (bullying selfharm sexual substance : Z),
    App.content_chart content_res = Some (App.Bars bullying selfharm sexual substance) ->
    (0 <= bullying <= 4)%Z /\ (0 <= selfharm <= 4)%Z
    /\ (0 <= sexual <= 4)%Z /\ (0 <= substance <= 4)%Z.
Proof.
  intros content_res b s x a. unfold App.content_chart.
  destruct (App.has_overall content_res) as [[|]|]; try discriminate.
  destruct content_res as [| ? | ? | ? | ? | ? | d]; try discriminate.
  destruct (dict_get (u "overall") d) as [[| ? | ? | ? | ? | ? | overall]|];
    try discriminate.
  destruct (App.severity overall (u "bullying_risk")) as [n1|] eqn:E1; [|discriminate].
  destruct (App.severity overall (u "self_harm_risk")) as [n2|] eqn:E2; [|discriminate].
  destruct (App.severity overall (u "sexual_exploitation_risk")) as [n3|] eqn:E3;
    [|discriminate].
  destruct (App.severity overall (u "substance_abuse_risk")) as [n4|] eqn:E4;
    [|discriminate].
  intros H. inversion H; subst.
  apply severity_bounds in E1, E2, E3, E4. auto.
Qed.

Lemma content_chart_bars_are_bounded_witness :
  App.content_chart (App.demo_content_res sample_posts) = Some (App.Bars 1 1 0 1)
  /\ (0 <= 1 <= 4)%Z /\ (0 <= 1 <= 4)%Z /\ (0 <= 0 <= 4)%Z /\ (0 <= 1 <= 4)%Z.
Proof.
  split; [reflexivity|].
  apply (@content_chart_bars_are_bounded (App.demo_content_res sample_posts) 1 1 0 1).
  reflexivity.
Defined.

Lemma rfind_absent (c : N) (s : pystr) : ~ In c s -> rfind c s = (-1)%Z.
Proof. intros H. unfold rfind. now apply rfind_from_absent. Qed.

(** X9.  When the content agent is answered with text that is not JSON and
    holds no opening brace, the audit completes with [None] as the content
    result, and the report view raises at its first ["overall" in
    content_res]. *)
Theorem report_view_raises_after_a_plain_text_reply :
  forall (World : Type) (create : Agents.request -> World -> Agents.completion * World)
         (float_repr : pystr -> pystr) (api_key : pystr)
         (users : list App.UserRow) (posts : list App.PostRow)
         (interactions : list App.InteractionRow) (policies_text selected : pystr)
         (row : App.UserRow) (s : Agents.session World) (content : pystr),
    App.key_present (Some api_key) = true ->
    contains App.PLACEHOLDER api_key = false ->
    List.find (fun r => pystr_eqb (App.user_id r) selected) users = Some row ->
    (forall r w, Agents.req_system r = Agents.content_risk_agent_prompt ->
                 fst (create r w) = Agents.Content (Some content)) ->
    Json.loads content = None ->
    ~ In 123%N content ->
    exists r s',
      App.main create float_repr (Some api_key) users posts interactions policies_text
        selected true s = (App.Audited r, s')
      /\ App.content_res r = Json.JNull
      /\ App.content_chart (App.content_res r) = None.
Proof.
  intros World create float_repr api_key users posts interactions policies_text selected
    row s content Hkey Hph Hrow Hreply Hstrict Hbrace.
  unfold App.main. rewrite Hrow, Hkey, Hph. cbn [negb orb]. unfold Agents.bind.
  destruct (Agents.underage_risk_agent _ _ _ _ s) as [r1 s1].
  unfold Agents.content_risk_agent.
  match goal with
  | |- context [Agents._run_json_agent create ?sp ?p ?m s1] =>
      pose proof (@run_json_agent_result World create sp p m s1 content
                    (Hreply {| Agents.req_model := Agents.LLM_MODEL;
                               Agents.req_system := sp; Agents.req_user := p;
                               Agents.req_max_tokens := m |} (Agents.world s1) eq_refl))
        as Hres
  end.
  rewrite Hstrict, rfind_absent in Hres by assumption. cbn [Z.eqb] in Hres.
  destruct (Agents._run_json_agent create _ _ 1000%Z s1) as [r2 s2].
  cbn [fst] in Hres. subst r2.
  destruct (Agents.interaction_risk_agent _ _ _ _ s2) as [r3 s3].
  destruct (Agents.policy_violation_agent _ _ _ _ s3) as [r4 s4].
  destruct (Agents.report_generator_agent _ _ _ _ _ _ _ s4) as [r5 s5].
  eexists. eexists. split; [reflexivity|]. split; reflexivity.
Qed.

Lemma report_view_raises_after_a_plain_text_reply_witness :
  exists r s',
    App.main (constant_endpoint (Agents.Content (Some (u "I cannot help with that."))))
      (fun lit => lit) (Some (u "sk-test")) sample_users sample_posts sample_interactions
      (u "No policies found.") (u "u1") true (fresh tt) = (App.Audited r, s')
    /\ App.content_res r = Json.JNull
    /\ App.content_chart (App.content_res r) = None.
Proof.
  apply (@report_view_raises_after_a_plain_text_reply unit
           (constant_endpoint (Agents.Content (Some (u "I cannot help with that."))))
           (fun lit => lit) (u "sk-test") sample_users sample_posts sample_interactions
           (u "No policies found.") (u "u1") sample_user_1 (fresh tt)
           (u "I cannot help with that.")).
  - reflexivity.
  - reflexivity.
  - reflexivity.
  - intros r w _. reflexivity.
  - reflexivity.
  - vm_compute. intuition discriminate.
Defined.

(* ===================================================================== *)
(** * Further facts about generate_synthetic_data.py                      *)
(* ===================================================================== *)

Section DrawFacts.
Import Generator.

Lemma randint_bounds (a b : Z) (g : rng) :
  (a <= b)%Z -> (a <= fst (randint a b g) <= b)%Z.
Proof.
  intros Hab. unfold randint.
  pose proof (@randbelow_lt (Z.to_nat (b - a + 1)) g ltac:(lia)) as Hlt.
  destruct (randbelow (Z.to_nat (b - a + 1)) g) as [i g']. cbn [fst] in *. lia.
Qed.

Lemma repeat_draw_all (A : Type) (P : A -> Prop) (f : rng -> A * rng) :
  (forall g, P (fst (f g))) ->
  forall n g, Forall P (fst (repeat_draw n f g)).
Proof.
  intros Hf. induction n as [|n IH]; intros g; simpl; [constructor|].
  pose proof (Hf g) as Hx. destruct (f g) as [x g1]. specialize (IH g1).
  destruct (repeat_draw n f g1) as [xs g2]. simpl in *. now constructor.
Qed.

Lemma zip4_rows (a : list pystr) :
  forall (b : list Z) (c : list pystr) (d : list timestamp),
    length b = length a -> length c = length a -> length d = length a ->
    List.map age (zip4 a b c d) = b
    /\ List.map account_type (zip4 a b c d) = c
    /\ List.map created_at (zip4 a b c d) = d.
Proof.
  induction a as [|x a IH]; intros [|y b] [|z c] [|w d]; simpl;
    try discriminate; auto.
  intros Hb Hc Hd. destruct (IH b c d) as (H1 & H2 & H3); try lia.
  now rewrite H1, H2, H3.
Qed.

(** The rows of [generate_users], column by column. *)
Lemma generate_users_columns (n : nat) (start_date : pystr) (g : rng) :
  let users := fst (generate_users n start_date g) in
  Forall (fun a => In a [13; 14; 15; 16; 17; 18; 21; 25; 30]%Z) (List.map age users)
  /\ Forall (fun t => In t [u "standard"; u "creator"; u "business"])
       (List.map account_type users)
  /\ List.map created_at users
     = List.map (fun i => {| base := start_date; days := Z.of_nat i |}) (seq 0 n).
Proof.
  unfold generate_users.
  pose proof (repeat_draw_length (choice 13%Z [14; 15; 16; 17; 18; 21; 25; 30]%Z) n g)
    as Hla.
  pose proof (@repeat_draw_all Z (fun a => In a [13; 14; 15; 16; 17; 18; 21; 25; 30]%Z)
                (choice 13%Z [14; 15; 16; 17; 18; 21; 25; 30]%Z)
                (fun g0 => choice_in 13%Z _ g0) n g) as Hages.
  destruct (repeat_draw n (choice 13%Z _) g) as [ages g1]. cbn [fst] in Hla, Hages.
  pose proof (repeat_draw_length (choice (u "standard") [u "creator"; u "business"]) n g1)
    as Hlt.
  pose proof (@repeat_draw_all pystr
                (fun t => In t [u "standard"; u "creator"; u "business"])
                (choice (u "standard") [u "creator"; u "business"])
                (fun g0 => choice_in (u "standard") _ g0) n g1) as Htypes.
  destruct (repeat_draw n (choice (u "standard") _) g1) as [types g2].
  cbn [fst] in *.
  destruct (@zip4_rows
              (List.map (fun i => u "u" ++ str_of_N (N.of_nat (i + 1))) (seq 0 n))
              ages types
              (List.map (fun i => {| base := start_date; days := Z.of_nat i |}) (seq 0 n)))
    as (H1 & H2 & H3); rewrite ?length_map, ?length_seq; auto.
  rewrite H1, H2, H3. auto.
Qed.
End DrawFacts.

(** X10.  [generate_users(n)] returns exactly [n] rows; their ids are
    [u1], ..., [un] in order (so they are distinct), every age is one of the
    nine listed ages, every account type one of the three listed types, and
    row [i] is created [i] days after the start date. *)
Theorem generate_users_table_shape :
  forall (n : nat) (start_date : pystr) (g : Generator.rng),
    let users := fst (Generator.generate_users n start_date g) in
    length users = n
    /\ List.map Generator.user_id users
       = List.map (fun i => u "u" ++ str_of_N (N.of_nat (i + 1))) (seq 0 n)
    /\ NoDup (List.map Generator.user_id users)
    /\ Forall (fun r => In (Generator.age r) [13; 14; 15; 16; 17; 18; 21; 25; 30]%Z
                        /\ In (Generator.account_type r)
                             [u "standard"; u "creator"; u "business"]) users
    /\ List.map Generator.created_at users
       = List.map (fun i => {| Generator.base := start_date;
                               Generator.days := Z.of_nat i |}) (seq 0 n).
Proof.
  intros n start_date g users.
  destruct (generate_users_columns n start_date g) as (Hages & Htypes & Hdates).
  fold users in Hages, Htypes, Hdates.
  split; [apply generate_users_length|].
  split; [apply generate_users_ids|].
  split; [apply generate_users_nodup|].
  split; [|exact Hdates].
  rewrite Forall_forall in *. intros r Hr. split.
  - apply Hages. now apply in_map.
  - apply Htypes. now apply in_map.
Qed.

Section PostFacts.
Import Generator.

(** One user's posts: [k] rows numbered from [pid] on. *)
Lemma posts_of_user_rows (row : User) (ts : pystr) (k : nat) :
  forall (pid : N) (g : rng),
    let '(rows, pid', _) := posts_of_user row k ts pid g in
    List.map post_id rows
    = List.map (fun j => u "p" ++ str_of_N (pid + N.of_nat j)) (seq 0 k)
    /\ List.map post_user_id rows = repeat (user_id row) k
    /\ pid' = (pid + N.of_nat k)%N
    /\ Forall (fun p => base (post_timestamp p) = ts
                        /\ (0 <= days (post_timestamp p) <= 60)%Z
                        /\ exists g0, post_text p = fst (sample_post_text (age row) g0))
         rows.
Proof.
  induction k as [|k IH]; intros pid g; cbn -[sample_post_text randint].
  - repeat split; [lia|constructor].
  - destruct (sample_post_text (age row) g) as [text g1] eqn:Et.
    pose proof (@randint_bounds 0 60 g1 ltac:(lia)) as Hd.
    destruct (randint 0 60 g1) as [d g2]. cbn [fst] in Hd.
    specialize (IH (pid + 1)%N g2).
    destruct (posts_of_user row k ts (pid + 1) g2) as [[rows pid'] g3].
    destruct IH as (Hids & Howner & Hpid & Hrows).
    split; [|split; [|split]].
    + cbn [List.map post_id]. rewrite N.add_0_r. f_equal.
      rewrite Hids, <- seq_shift, map_map.
      apply map_ext. intros j.
      replace (pid + 1 + N.of_nat j)%N with (pid + N.of_nat (S j))%N by lia.
      reflexivity.
    + cbn [List.map post_user_id]. now rewrite Howner.
    + lia.
    + constructor; [|exact Hrows]. cbn [post_text post_timestamp base days].
      repeat split; try lia. exists g. now rewrite Et.
Qed.

Lemma seq_offset (a n : nat) : seq a n = List.map (Nat.add a) (seq 0 n).
Proof.
  revert a. induction n as [|n IH]; intros a; simpl; [reflexivity|].
  rewrite Nat.add_0_r. f_equal.
  rewrite (IH (S a)), (IH 1), map_map. apply map_ext. intros j. lia.
Qed.

(** All posts: numbered from [pid] on, grouped by user in table order. *)
Lemma posts_loop_rows (ppu : nat) (ts : pystr) (users_df : list User) :
  forall (pid : N) (g : rng),
    let rows := fst (posts_loop users_df ppu ts pid g) in
    List.map post_id rows
    = List.map (fun j => u "p" ++ str_of_N (pid + N.of_nat j))
        (seq 0 (length users_df * ppu))
    /\ List.map post_user_id rows
       = flat_map (fun r => repeat (user_id r) ppu) users_df
    /\ Forall (fun p => base (post_timestamp p) = ts
                        /\ (0 <= days (post_timestamp p) <= 60)%Z
                        /\ exists r g0, In r users_df /\ user_id r = post_user_id p
                                        /\ post_text p = fst (sample_post_text (age r) g0))
         rows.
Proof.
  induction users_df as [|row rest IH]; intros pid g; cbn [posts_loop length Nat.mul].
  - repeat split; constructor.
  - pose proof (posts_of_user_rows row ts ppu pid g) as Hrow.
    pose proof (@posts_of_user_owner row ts ppu pid g) as Hown.
    destruct (posts_of_user row ppu ts pid g) as [[rows pid'] g1].
    destruct Hrow as (Hids & Howner & Hpid & Hrows).
    specialize (IH pid' g1).
    destruct (posts_loop rest ppu ts pid' g1) as [rows' g2].
    cbn [fst] in *. destruct IH as (Hids' & Howner' & Hrows').
    split; [|split].
    + rewrite map_app, Hids, Hids', seq_app, map_app. f_equal.
      cbn [Nat.add]. rewrite (seq_offset ppu), map_map. subst pid'.
      apply map_ext. intros j.
      replace (pid + N.of_nat ppu + N.of_nat j)%N with (pid + N.of_nat (ppu + j))%N by lia.
      reflexivity.
    + rewrite map_app, Howner, Howner'. reflexivity.
    + apply Forall_app. split.
      * rewrite Forall_forall in *. intros p Hp.
        destruct (Hrows p Hp) as (Hb & Hd & g0 & Ht).
        split; [exact Hb|]. split; [exact Hd|].
        exists row, g0. split; [now left|]. split; [|exact Ht].
        symmetry. now apply Hown.
      * eapply Forall_impl; [|exact Hrows']. cbn beta.
        intros p (Hb & Hd & r & g0 & Hr & Hid & Ht).
        split; [exact Hb|]. split; [exact Hd|].
        exists r, g0. split; [now right|]. split; assumption.
Qed.
End PostFacts.

(** X11.  [generate_posts] returns [posts_per_user] rows for every user, in
    table order: the post ids are [p1], [p2], ... without a gap, the owners
    are the user ids each repeated [posts_per_user] times, and every
    timestamp is the start timestamp plus 0 to 60 days. *)
Theorem generate_posts_table_shape :
  forall (users_df : list Generator.User) (posts_per_user : nat) (start_ts : pystr)
         (g : Generator.rng),
    let rows := fst (Generator.generate_posts users_df posts_per_user start_ts g) in
    length rows = length users_df * posts_per_user
    /\ List.map Generator.post_id rows
       = List.map (fun j => u "p" ++ str_of_N (N.of_nat (j + 1)))
           (seq 0 (length users_df * posts_per_user))
    /\ List.map Generator.post_user_id rows
       = flat_map (fun r => repeat (Generator.user_id r) posts_per_user) users_df
    /\ Forall (fun p => Generator.base (Generator.post_timestamp p) = start_ts
                        /\ (0 <= Generator.days (Generator.post_timestamp p) <= 60)%Z)
         rows.
Proof.
  intros users_df ppu ts g rows.
  destruct (posts_loop_rows ppu ts users_df 1%N g) as (Hids & Howner & Hrows).
  fold (Generator.generate_posts users_df ppu ts g) in Hids, Howner, Hrows.
  fold rows in Hids, Howner, Hrows.
  assert (Hids' : List.map Generator.post_id rows
                  = List.map (fun j => u "p" ++ str_of_N (N.of_nat (j + 1)))
                      (seq 0 (length users_df * ppu))).
  { rewrite Hids. apply map_ext. intros j. do 2 f_equal. lia. }
  split; [|split; [exact Hids'|split; [exact Howner|]]].
  - rewrite <- (length_map Generator.post_id), Hids'. now rewrite length_map, length_seq.
  - eapply Forall_impl; [|exact Hrows]. cbn beta. tauto.
Qed.

(** X12.  The text of every generated post comes from the pools of its
    owner's age group: a post of a user under 18 is never one of the
    substance-abuse texts, a post of a user of 18 or more never one of the
    self-harm texts. *)
Theorem generated_posts_follow_the_owner_age :
  forall (users_df : list Generator.User) (posts_per_user : nat) (start_ts : pystr)
         (g : Generator.rng) (p : Generator.Post),
    In p (fst (Generator.generate_posts users_df posts_per_user start_ts g)) ->
    exists owner,
      In owner users_df
      /\ Generator.user_id owner = Generator.post_user_id p
      /\ ((Generator.age owner < 18)%Z ->
          In (Generator.post_text p)
            (Generator.risky_self_harm ++ Generator.risky_bully
             ++ Generator.risky_grooming ++ Generator.safe)
          /\ ~ In (Generator.post_text p) Generator.risky_substance)
      /\ ((18 <= Generator.age owner)%Z ->
          In (Generator.post_text p)
            (Generator.risky_substance ++ Generator.risky_grooming
             ++ Generator.risky_bully ++ Generator.safe)
          /\ ~ In (Generator.post_text p) Generator.risky_self_harm).
Proof.
  intros users_df ppu ts g p Hp.
  destruct (posts_loop_rows ppu ts users_df 1%N g) as (_ & _ & Hrows).
  rewrite Forall_forall in Hrows.
  destruct (Hrows p Hp) as (_ & _ & owner & g0 & Hin & Hid & Ht).
  exists owner. split; [assumption|]. split; [assumption|].
  pose proof (sample_post_text_pools (Generator.age owner) g0) as Hpool.
  cbv zeta in Hpool. rewrite <- Ht in Hpool.
  destruct (Z.ltb_spec (Generator.age owner) 18) as [Hlt|Hge]; split; intros Hc;
    try lia; split; try assumption.
  - now apply pools_minor_no_substance.
  - now apply pools_adult_no_self_harm.
Qed.

Lemma generated_posts_follow_the_owner_age_witness :
  let users := fst (Generator.generate_users 2 (u "2024-01-01") count_tape) in
  let posts := fst (Generator.generate_posts users 1 (u "2024-03-01") count_tape) in
  exists p owner,
    In p posts
    /\ In owner users
    /\ Generator.user_id owner = Generator.post_user_id p
    /\ ((Generator.age owner < 18)%Z ->
        In (Generator.post_text p)
          (Generator.risky_self_harm ++ Generator.risky_bully
           ++ Generator.risky_grooming ++ Generator.safe)
        /\ ~ In (Generator.post_text p) Generator.risky_substance)
    /\ ((18 <= Generator.age owner)%Z ->
        In (Generator.post_text p)
          (Generator.risky_substance ++ Generator.risky_grooming
           ++ Generator.risky_bully ++ Generator.safe)
        /\ ~ In (Generator.post_text p) Generator.risky_self_harm).
Proof.
  intros users posts.
  destruct posts as [|p rest] eqn:E; [vm_compute in E; discriminate|].
  assert (Hp : In p (fst (Generator.generate_posts users 1 (u "2024-03-01") count_tape))).
  { fold posts. rewrite E. now left. }
  destruct (@generated_posts_follow_the_owner_age users 1 (u "2024-03-01") count_tape p Hp)
    as (owner & H).
  exists p, owner. split; [now left|exact H].
Defined.

Section InteractionFacts.
Import Generator.

Lemma sample_dm_text_pools (older younger : pystr) (g : rng) :
  In (fst (sample_dm_text older younger g)) (dm_risky ++ dm_neutral).
Proof.
  unfold sample_dm_text. destruct (random g) as [x g1]. rewrite in_app_iff.
  destruct (binary_ltb x f0_4); [left|right]; apply choice_of_in; discriminate.
Qed.

(** The rows of the loop: numbered from [i + 1] on, one per iteration. *)
Lemma interactions_loop_shape (user_ids : list pystr) (ages : list (pystr * Z))
    (ts : pystr) (k : nat) :
  forall (i : nat) (g g' : rng) (rows : list Interaction),
    interactions_loop user_ids ages ts i k g = Some (rows, g') ->
    List.map interaction_id rows
    = List.map (fun j => u "i" ++ str_of_N (N.of_nat (i + j + 1))) (seq 0 k)
    /\ Forall (fun r => interaction_type r = u "dm"
                        /\ In (interaction_text r) (dm_risky ++ dm_neutral)
                        /\ base (interaction_timestamp r) = ts
                        /\ (0 <= days (interaction_timestamp r) <= 60)%Z) rows.
Proof.
  induction k as [|k IH]; intros i g g' rows H;
    cbn -[sample2 sample_dm_text randint dict_get] in H.
  - inversion H; subst. split; [reflexivity|constructor].
  - destruct (sample2 user_ids g) as [[[u1 u2] g1]|]; [|discriminate].
    destruct (dict_get u1 ages) as [a1|]; [|discriminate].
    destruct (dict_get u2 ages) as [a2|]; [|discriminate].
    destruct (if (a1 >? a2)%Z then (u1, u2) else (u2, u1)) as [older younger].
    pose proof (sample_dm_text_pools older younger g1) as Htext.
    destruct (sample_dm_text older younger g1) as [text g2]. cbn [fst] in Htext.
    pose proof (@randint_bounds 0 60 g2 ltac:(lia)) as Hd.
    destruct (randint 0 60 g2) as [d g3]. cbn [fst] in Hd.
    destruct (interactions_loop user_ids ages ts (S i) k g3) as [[rows' g4]|] eqn:El;
      [|discriminate].
    inversion H; subst; clear H.
    destruct (IH _ _ _ _ El) as (Hids & Hrows).
    split.
    + cbn [List.map interaction_id seq]. rewrite Nat.add_0_r. f_equal.
      rewrite Hids, <- seq_shift, map_map. apply map_ext. intros j.
      replace (S i + j + 1) with (i + S j + 1) by lia. reflexivity.
    + constructor; [|exact Hrows].
      cbn [interaction_type interaction_text interaction_timestamp base days]. auto.
Qed.

Lemma sample2_needs_two (A : Type) (population : list A) (g : rng) :
  length population < 2 -> sample2 population g = None.
Proof.
  intros H. unfold sample2.
  destruct (Nat.ltb_spec (length population) 2); [reflexivity|lia].
Qed.
End InteractionFacts.

(** X13.  When [generate_interactions] returns, it returns exactly
    [n_interactions] rows with the ids [i1], [i2], ... in order; every row
    has type [dm], a text from the two message pools and a timestamp of the
    start timestamp plus 0 to 60 days. *)
Theorem generate_interactions_table_shape :
  forall (users_df : list Generator.User) (n_interactions : nat) (start_ts : pystr)
         (g g' : Generator.rng) (rows : list Generator.Interaction),
    Generator.generate_interactions users_df n_interactions start_ts g = Some (rows, g') ->
    length rows = n_interactions
    /\ List.map Generator.interaction_id rows
       = List.map (fun j => u "i" ++ str_of_N (N.of_nat (j + 1))) (seq 0 n_interactions)
    /\ Forall (fun r => Generator.interaction_type r = u "dm"
                        /\ In (Generator.interaction_text r)
                             (Generator.dm_risky ++ Generator.dm_neutral)
                        /\ Generator.base (Generator.interaction_timestamp r) = start_ts
                        /\ (0 <= Generator.days (Generator.interaction_timestamp r) <= 60)%Z)
         rows.
Proof.
  intros users_df n ts g g' rows H.
  destruct (interactions_loop_shape _ _ _ _ _ _ H) as (Hids & Hrows).
  split; [|split; assumption].
  rewrite <- (length_map Generator.interaction_id), Hids.
  now rewrite length_map, length_seq.
Qed.

Lemma generate_interactions_table_shape_witness :
  let users := fst (Generator.generate_users 3 (u "2024-01-01") count_tape) in
  exists rows g',
    Generator.generate_interactions users 4 (u "2024-03-01") count_tape = Some (rows, g')
    /\ length rows = 4
    /\ List.map Generator.interaction_id rows
       = List.map (fun j => u "i" ++ str_of_N (N.of_nat (j + 1))) (seq 0 4)
    /\ Forall (fun r => Generator.interaction_type r = u "dm"
                        /\ In (Generator.interaction_text r)
                             (Generator.dm_risky ++ Generator.dm_neutral)
                        /\ Generator.base (Generator.interaction_timestamp r)
                           = u "2024-03-01"
                        /\ (0 <= Generator.days (Generator.interaction_timestamp r) <= 60)%Z)
         rows.
Proof.
  intros users.
  destruct (Generator.generate_interactions users 4 (u "2024-03-01") count_tape)
    as [[rows g']|] eqn:E; [|vm_compute in E; discriminate].
  exists rows, g'. split; [reflexivity|].
  exact (@generate_interactions_table_shape users 4 (u "2024-03-01") count_tape g' rows E).
Defined.

(** X14.  With fewer than two users and at least one interaction asked
    for, [generate_interactions] raises (the [ValueError] of
    [random.sample]) instead of returning rows. *)
Theorem generate_interactions_needs_two_users :
  forall (users_df : list Generator.User) (n_interactions : nat) (start_ts : pystr)
         (g : Generator.rng),
    length users_df < 2 -> 0 < n_interactions ->
    Generator.generate_interactions users_df n_interactions start_ts g = None.
Proof.
  intros users_df n ts g Hlen Hn. unfold Generator.generate_interactions.
  destruct n as [|n]; [lia|].
  cbn -[Generator.sample2 Generator.sample_dm_text Generator.randint dict_get].
  rewrite sample2_needs_two by (now rewrite length_map). reflexivity.
Qed.

Lemma generate_interactions_needs_two_users_witness :
  Generator.generate_interactions
    (fst (Generator.generate_users 1 (u "2024-01-01") count_tape)) 60 (u "2024-03-01")
    count_tape = None.
Proof.
  apply (@generate_interactions_needs_two_users
           (fst (Generator.generate_users 1 (u "2024-01-01") count_tape)) 60
           (u "2024-03-01") count_tape).
  - vm_compute. lia.
  - lia.
Defined.





Section BucketFacts.
Import Generator.

(** The three thresholds are nested: a bucket not below [0.4] is not below
    [0.3] or [0.15] either. *)
Lemma bucket_above_all (g : rng) :
  binary_ltb (fst (random g)) f0_4 = false ->
  binary_ltb (fst (random g)) f0_3 = false
  /\ binary_ltb (fst (random g)) f0_15 = false.
Proof.
  unfold random, next, binary_ltb, f0_4, f0_3, f0_15. cbn [fst num exp2].
  change (2 ^ 53)%N with 9007199254740992%N.
  change (2 ^ 54)%N with 18014398509481984%N.
  change (2 ^ 55)%N with 36028797018963968%N.
  rewrite !N.ltb_ge.
  remember (tape g (cursor g) mod 9007199254740992)%N as k. lia.
Qed.

Lemma safe_apart (t : pystr) :
  In t safe ->
  ~ In t (risky_self_harm ++ risky_bully ++ risky_grooming ++ risky_substance).
Proof.
  intros H Hr. vm_compute in H.
  repeat (destruct H as [H|H]; [subst t; vm_compute in Hr; intuition discriminate|]).
  exact H.
Qed.
End BucketFacts.

(** X17.  The first draw alone decides whether a post is harmless: the
    text is one of the safe texts exactly when [random.random()] is not
    below [0.4], for every age. *)
Theorem sample_post_text_is_safe_from_0_4 :
  forall (user_age : Z) (g : Generator.rng),
    In (fst (Generator.sample_post_text user_age g)) Generator.safe
    <-> Generator.binary_ltb (fst (Generator.random g)) Generator.f0_4 = false.
Proof.
  intros user_age g. split.
  - intros Hsafe. apply safe_apart in Hsafe.
    destruct (Generator.binary_ltb (fst (Generator.random g)) Generator.f0_4) eqn:E4;
      [|reflexivity].
    exfalso. apply Hsafe. rewrite !in_app_iff.
    unfold Generator.sample_post_text in *.
    destruct (Generator.random g) as [bucket g1]. cbn [fst] in *. rewrite E4.
    destruct (user_age <? 18)%Z;
      destruct (Generator.binary_ltb bucket Generator.f0_15);
      try destruct (Generator.binary_ltb bucket Generator.f0_3);
      match goal with
      | |- context [Generator.choice_of ?p ?g] =>
          pose proof (@choice_of_in p g ltac:(discriminate))
      end; tauto.
  - intros E4. destruct (bucket_above_all g E4) as (E3 & E15).
    unfold Generator.sample_post_text.
    destruct (Generator.random g) as [bucket g1]. cbn [fst] in *.
    rewrite E4, E3, E15.
    destruct (user_age <? 18)%Z; apply choice_of_in; discriminate.
Qed.
